(** * EZ_Archive: the metadata search page, the chat-summary modal and the
    mistake book, embedded from their Svelte sources.

    Each component's [<script>] block is translated into a state record
    and one transition function per handler.  A handler that awaits a
    provider is split at the [await]: what runs before it, and what runs
    once the promise has settled. *)

From Stdlib Require Import ZArith NArith Floats Ascii.
From stdpp Require Import gmap strings list fin_maps.

Open Scope string_scope.
Open Scope list_scope.
Open Scope nat_scope.
Set Warnings "-register-all".

(** ** JavaScript strings

    A JavaScript string is a sequence of UTF-16 code units.  [js] writes
    one from an ASCII literal; property names are Rocq strings. *)

Abbreviation jsstring := (list N).

Definition js (s : string) : jsstring :=
  (λ a, N_of_ascii a) <$> String.list_ascii_of_string s.

(** ECMAScript's WhiteSpace and LineTerminator code points, the ones
    [String.prototype.trim] strips.  All of them are in the basic plane, so
    each is one code unit. *)
Definition isWhiteSpace (c : N) : bool :=
  ((c =? 0x09) || (c =? 0x0A) || (c =? 0x0B) || (c =? 0x0C) || (c =? 0x0D)
   || (c =? 0x20) || (c =? 0xA0) || (c =? 0x1680)
   || ((0x2000 <=? c) && (c <=? 0x200A))
   || (c =? 0x2028) || (c =? 0x2029) || (c =? 0x202F) || (c =? 0x205F)
   || (c =? 0x3000) || (c =? 0xFEFF))%N.

Fixpoint trimStart (s : jsstring) : jsstring :=
  match s with
  | [] => []
  | c :: s' => if isWhiteSpace c then trimStart s' else s
  end.

Definition trimEnd (s : jsstring) : jsstring := reverse (trimStart (reverse s)).

(** [s.trim()] *)
Definition trim (s : jsstring) : jsstring := trimEnd (trimStart s).

(** ** JavaScript values, as far as the three components look into them *)

Inductive JSVal : Type :=
| VUndefined
| VNull
| VBool (b : bool)
| VNum (x : float)
| VStr (s : jsstring)
| VArr (xs : list JSVal)
| VObj (fields : list (string * JSVal)).

(** ToBoolean *)
Definition truthy (v : JSVal) : bool :=
  match v with
  | VUndefined | VNull => false
  | VBool b => b
  | VNum x => negb (PrimFloat.eqb x 0 || PrimFloat.is_nan x)
  | VStr s => negb (bool_decide (s = []))
  | VArr _ | VObj _ => true
  end.

(** A chat record as the API returns it: an object, opaque but for
    [updated_at]. *)
Abbreviation Chat := (gmap string JSVal).

(** [obj.key]: a missing property reads as [undefined]. *)
Definition getProp (o : Chat) (k : string) : JSVal := default VUndefined (o !! k).

(** How an awaited promise settles. *)
Inductive Settled (A : Type) : Type :=
| Resolved (v : A)
| Rejected (err : JSVal).
Arguments Resolved {A} v.
Arguments Rejected {A} err.

(** ** Result annotation

    [chats.map(chat => ({ ...chat, time_range: getTimeRange(chat.updated_at) }))],
    the same expression in [performSearch] and in the mistake book's
    [loadData].  [getTimeRange] lives in [$lib/utils]; it is a parameter. *)
Section Annotation.
Variable getTimeRange : JSVal → jsstring.

Definition annotateChat (chat : Chat) : Chat :=
  <["time_range" := VStr (getTimeRange (getProp chat "updated_at"))]> chat.

Definition annotateChats (chats : list Chat) : list Chat :=
  annotateChat <$> chats.

(** The same [map] on references.  The heap is the list of objects
    allocated so far and an address is an index into it; an object literal
    allocates.  Reading through a dangling reference is the [TypeError]
    of reading a property of [undefined]. *)
Definition alloc (h : list Chat) (o : Chat) : list Chat * nat :=
  (h ++ [o], length h).

Fixpoint mapAnnotate (h : list Chat) (refs : list nat) : option (list Chat * list nat) :=
  match refs with
  | [] => Some (h, [])
  | r :: rs =>
      chat ← h !! r;
      let '(h1, r') := alloc h (annotateChat chat) in
      '(h2, out) ← mapAnnotate h1 rs;
      Some (h2, r' :: out)
  end.

End Annotation.

(** ** The metadata search page *)
Module SearchPage.

(** What the page shows or logs: [toast.success], [toast.error] and
    [console.error], in the order they happen. *)
Inductive Effect : Type :=
| ToastFound (n : nat)
| ToastSearchFailed
| ConsoleError (err : JSVal).

(** The component's variables.  The choice lists ([statistics]) only feed
    the dropdowns and are left out. *)
Record State : Type := mkState {
  searchResults : list Chat;
  loading : bool;
  searchPerformed : bool;
  selectedSubject : jsstring;
  selectedKnowledgePoints : list jsstring;
  selectedTags : list jsstring;
  showSubjectDropdown : bool;
  showKnowledgePointsDropdown : bool;
  showTagsDropdown : bool;
  effects : list Effect
}.

(** The variables' initialisers. *)
Definition init : State :=
  mkState [] false false [] [] [] false false false [].

(** The [filters] object [performSearch] builds before it calls the
    provider (the spec's [buildCriteria]). *)
Definition buildCriteria (st : State) : gmap string JSVal :=
  let filters : gmap string JSVal := ∅ in
  let filters :=
    if truthy (VStr (selectedSubject st))
    then <["subject" := VStr (selectedSubject st)]> filters else filters in
  let filters :=
    if (0 <? length (selectedKnowledgePoints st))%nat
    then <["knowledge_points" := VArr (VStr <$> selectedKnowledgePoints st)]> filters
    else filters in
  let filters :=
    if (0 <? length (selectedTags st))%nat
    then <["tags" := VArr (VStr <$> selectedTags st)]> filters else filters in
  filters.

(** [$: hasFilters = selectedSubject || selectedKnowledgePoints.length > 0
    || selectedTags.length > 0]: the first truthy operand, else the last. *)
Definition hasFilters (st : State) : JSVal :=
  if truthy (VStr (selectedSubject st)) then VStr (selectedSubject st)
  else if (0 <? length (selectedKnowledgePoints st))%nat then VBool true
  else VBool (0 <? length (selectedTags st))%nat.

Section Search.
Variable getTimeRange : JSVal → jsstring.

(** [performSearch] up to the [await]. *)
Definition performSearch_begin (st : State) : State :=
  mkState (searchResults st) true true
    (selectedSubject st) (selectedKnowledgePoints st) (selectedTags st)
    (showSubjectDropdown st) (showKnowledgePointsDropdown st) (showTagsDropdown st)
    (effects st).

(** [performSearch] from the settled promise on.  A resolved value is the
    array of chats, or something falsy ([None]). *)
Definition performSearch_settle (outcome : Settled (option (list Chat))) (st : State) : State :=
  match outcome with
  | Resolved (Some results) =>
      let searchResults' := annotateChats getTimeRange results in
      mkState searchResults' false (searchPerformed st)
        (selectedSubject st) (selectedKnowledgePoints st) (selectedTags st)
        (showSubjectDropdown st) (showKnowledgePointsDropdown st) (showTagsDropdown st)
        (effects st ++ [ToastFound (length searchResults')])
  | Resolved None =>
      mkState (searchResults st) false (searchPerformed st)
        (selectedSubject st) (selectedKnowledgePoints st) (selectedTags st)
        (showSubjectDropdown st) (showKnowledgePointsDropdown st) (showTagsDropdown st)
        (effects st)
  | Rejected err =>
      mkState (searchResults st) false (searchPerformed st)
        (selectedSubject st) (selectedKnowledgePoints st) (selectedTags st)
        (showSubjectDropdown st) (showKnowledgePointsDropdown st) (showTagsDropdown st)
        (effects st ++ [ConsoleError err; ToastSearchFailed])
  end.

(** One whole call: the provider [searchChatsByMetadata] is asked with the
    filters of the state the call started in. *)
Definition performSearch
    (searchChatsByMetadata : gmap string JSVal → Settled (option (list Chat)))
    (st : State) : State :=
  let st1 := performSearch_begin st in
  performSearch_settle (searchChatsByMetadata (buildCriteria st1)) st1.

End Search.

Definition clearFilters (st : State) : State :=
  mkState [] (loading st) false [] [] []
    (showSubjectDropdown st) (showKnowledgePointsDropdown st) (showTagsDropdown st)
    (effects st).

Definition removeKnowledgePoint (kp : jsstring) (st : State) : State :=
  mkState (searchResults st) (loading st) (searchPerformed st)
    (selectedSubject st)
    (filter (λ item, item ≠ kp) (selectedKnowledgePoints st))
    (selectedTags st)
    (showSubjectDropdown st) (showKnowledgePointsDropdown st) (showTagsDropdown st)
    (effects st).

Definition removeTag (tag : jsstring) (st : State) : State :=
  mkState (searchResults st) (loading st) (searchPerformed st)
    (selectedSubject st) (selectedKnowledgePoints st)
    (filter (λ item, item ≠ tag) (selectedTags st))
    (showSubjectDropdown st) (showKnowledgePointsDropdown st) (showTagsDropdown st)
    (effects st).

Definition addKnowledgePoint (kp : jsstring) (st : State) : State :=
  mkState (searchResults st) (loading st) (searchPerformed st)
    (selectedSubject st)
    (if negb (bool_decide (kp ∈ selectedKnowledgePoints st))
     then selectedKnowledgePoints st ++ [kp] else selectedKnowledgePoints st)
    (selectedTags st)
    (showSubjectDropdown st) false (showTagsDropdown st)
    (effects st).

Definition addTag (tag : jsstring) (st : State) : State :=
  mkState (searchResults st) (loading st) (searchPerformed st)
    (selectedSubject st) (selectedKnowledgePoints st)
    (if negb (bool_decide (tag ∈ selectedTags st))
     then selectedTags st ++ [tag] else selectedTags st)
    (showSubjectDropdown st) (showKnowledgePointsDropdown st) false
    (effects st).

(** The subject dropdown's two inline handlers:
    [selectedSubject = subject; showSubjectDropdown = false], with [''] for
    the entry that unsets it. *)
Definition selectSubject (subject : jsstring) (st : State) : State :=
  mkState (searchResults st) (loading st) (searchPerformed st)
    subject (selectedKnowledgePoints st) (selectedTags st)
    false (showKnowledgePointsDropdown st) (showTagsDropdown st)
    (effects st).

End SearchPage.

(** ** The chat-summary modal *)
Module SummaryModal.

(** The shape [summaryData] is initialised with. *)
Record SummaryData : Type := mkSummaryData {
  subject : jsstring;
  knowledge_points : list jsstring;
  summary : jsstring;
  tags : list jsstring
}.

(** What [summarizeChatById] resolves to and [generateSummary] spreads into
    [summaryData]: subject, knowledge points, summary, and possibly tags. *)
Record SummaryResult : Type := mkSummaryResult {
  res_subject : jsstring;
  res_knowledge_points : list jsstring;
  res_summary : jsstring;
  res_tags : option (list jsstring)
}.

(** The [existingSummary] prop when it is not [null]; the component reads
    every field of it through [|| default]. *)
Record ExistingSummary : Type := mkExistingSummary {
  ex_subject : option jsstring;
  ex_knowledge_points : option (list jsstring);
  ex_summary : option jsstring;
  ex_tags : option (list jsstring)
}.

(** The object [saveSummary] hands to [updateChatSummaryById]. *)
Record UpdateForm : Type := mkUpdateForm {
  form_subject : jsstring;
  form_knowledge_points : list jsstring;
  form_tags : list jsstring
}.

Inductive Effect : Type :=
| ToastSummaryGenerated
| ToastGenerateFailed
| ToastInfoUpdated
| ToastSaveFailed
| ConsoleError (err : JSVal)
| Dispatch (type : string) (detail : SummaryData).

Record State : Type := mkState {
  show : bool;
  chatId : jsstring;
  existingSummary : option ExistingSummary;
  loading : bool;
  summaryData : SummaryData;
  newKnowledgePoint : jsstring;
  newTag : jsstring;
  effects : list Effect
}.

Definition init : State :=
  mkState false [] None false (mkSummaryData [] [] [] []) [] [] [].

(** [existingSummary?.field || fallback], for a string or an array field
    (an array, also the empty one, is truthy; the empty string is the
    fallback itself). *)
Definition existingOr {A} (field : ExistingSummary → option A) (fallback : A)
    (es : option ExistingSummary) : A :=
  default fallback (es ≫= field).

Definition resetForm (st : State) : State :=
  mkState (show st) (chatId st) (existingSummary st) (loading st)
    (mkSummaryData
       (existingOr ex_subject [] (existingSummary st))
       (existingOr ex_knowledge_points [] (existingSummary st))
       (existingOr ex_summary [] (existingSummary st))
       (existingOr ex_tags [] (existingSummary st)))
    (newKnowledgePoint st) (newTag st) (effects st).

(** [$: if (show && existingSummary) resetForm()], which Svelte runs again
    after a handler that assigned [show] or [existingSummary]. *)
Definition reactive (st : State) : State :=
  if show st && bool_decide (is_Some (existingSummary st)) then resetForm st else st.

Definition generateSummary_settle (outcome : Settled (option SummaryResult)) (st : State) : State :=
  match outcome with
  | Resolved (Some result) =>
      mkState (show st) (chatId st) (existingSummary st) false
        (mkSummaryData (res_subject result) (res_knowledge_points result)
           (res_summary result) (existingOr ex_tags [] (existingSummary st)))
        (newKnowledgePoint st) (newTag st)
        (effects st ++ [ToastSummaryGenerated])
  | Resolved None =>
      mkState (show st) (chatId st) (existingSummary st) false
        (summaryData st) (newKnowledgePoint st) (newTag st) (effects st)
  | Rejected err =>
      mkState (show st) (chatId st) (existingSummary st) false
        (summaryData st) (newKnowledgePoint st) (newTag st)
        (effects st ++ [ConsoleError err; ToastGenerateFailed])
  end.

Definition generateSummary
    (summarizeChatById : jsstring → Settled (option SummaryResult))
    (st : State) : State :=
  if negb (truthy (VStr (chatId st))) then st
  else
    let st1 := mkState (show st) (chatId st) (existingSummary st) true
                 (summaryData st) (newKnowledgePoint st) (newTag st) (effects st) in
    generateSummary_settle (summarizeChatById (chatId st1)) st1.

(** [saveSummary] from the settled promise on.  On a truthy result it
    assigns [show], so the reactive statement runs once the handler is
    through. *)
Definition saveSummary_settle (outcome : Settled JSVal) (st : State) : State :=
  match outcome with
  | Resolved result =>
      if truthy result
      then reactive
             (mkState false (chatId st) (existingSummary st) false
                (summaryData st) (newKnowledgePoint st) (newTag st)
                (effects st ++ [ToastInfoUpdated; Dispatch "updated" (summaryData st)]))
      else mkState (show st) (chatId st) (existingSummary st) false
             (summaryData st) (newKnowledgePoint st) (newTag st) (effects st)
  | Rejected err =>
      mkState (show st) (chatId st) (existingSummary st) false
        (summaryData st) (newKnowledgePoint st) (newTag st)
        (effects st ++ [ConsoleError err; ToastSaveFailed])
  end.

Definition saveSummary
    (updateChatSummaryById : jsstring → UpdateForm → Settled JSVal)
    (st : State) : State :=
  if negb (truthy (VStr (chatId st))) then st
  else
    let st1 := mkState (show st) (chatId st) (existingSummary st) true
                 (summaryData st) (newKnowledgePoint st) (newTag st) (effects st) in
    saveSummary_settle
      (updateChatSummaryById (chatId st1)
         (mkUpdateForm (subject (summaryData st1))
            (knowledge_points (summaryData st1)) (tags (summaryData st1))))
      st1.

Definition addKnowledgePoint (st : State) : State :=
  if truthy (VStr (trim (newKnowledgePoint st)))
     && negb (bool_decide (trim (newKnowledgePoint st) ∈ knowledge_points (summaryData st)))
  then
    mkState (show st) (chatId st) (existingSummary st) (loading st)
      (mkSummaryData (subject (summaryData st))
         (knowledge_points (summaryData st) ++ [trim (newKnowledgePoint st)])
         (summary (summaryData st)) (tags (summaryData st)))
      [] (newTag st) (effects st)
  else st.

Definition addTag (st : State) : State :=
  if truthy (VStr (trim (newTag st)))
     && negb (bool_decide (trim (newTag st) ∈ tags (summaryData st)))
  then
    mkState (show st) (chatId st) (existingSummary st) (loading st)
      (mkSummaryData (subject (summaryData st))
         (knowledge_points (summaryData st))
         (summary (summaryData st)) (tags (summaryData st) ++ [trim (newTag st)]))
      (newKnowledgePoint st) [] (effects st)
  else st.

(** [l.filter((_, i) => i !== index)] *)
Fixpoint filterIndexFrom {A} (i : nat) (index : nat) (l : list A) : list A :=
  match l with
  | [] => []
  | x :: l' =>
      if negb (i =? index)%nat then x :: filterIndexFrom (S i) index l'
      else filterIndexFrom (S i) index l'
  end.

Definition removeKnowledgePoint (index : nat) (st : State) : State :=
  mkState (show st) (chatId st) (existingSummary st) (loading st)
    (mkSummaryData (subject (summaryData st))
       (filterIndexFrom 0 index (knowledge_points (summaryData st)))
       (summary (summaryData st)) (tags (summaryData st)))
    (newKnowledgePoint st) (newTag st) (effects st).

Definition removeTag (index : nat) (st : State) : State :=
  mkState (show st) (chatId st) (existingSummary st) (loading st)
    (mkSummaryData (subject (summaryData st))
       (knowledge_points (summaryData st))
       (summary (summaryData st))
       (filterIndexFrom 0 index (tags (summaryData st))))
    (newKnowledgePoint st) (newTag st) (effects st).

(** [bind:value={newKnowledgePoint}] and [bind:value={newTag}]: typing
    into the two inputs. *)
Definition typeKnowledgePoint (text : jsstring) (st : State) : State :=
  mkState (show st) (chatId st) (existingSummary st) (loading st)
    (summaryData st) text (newTag st) (effects st).

Definition typeTag (text : jsstring) (st : State) : State :=
  mkState (show st) (chatId st) (existingSummary st) (loading st)
    (summaryData st) (newKnowledgePoint st) text (effects st).

End SummaryModal.

(** ** The mistake book *)
Module MistakeBook.
Open Scope float_scope.

(** A JavaScript number is a binary64 float; so is Rocq's [float]. *)

(** The number an integer count denotes. *)
Definition Z2float (n : Z) : float :=
  if (n <? 0)%Z then - of_uint63 (Uint63.of_Z (- n)) else of_uint63 (Uint63.of_Z n).

(** [Math.round]: the closest integer, the larger one on a tie; a float
    with a non-negative exponent, an infinity, a zero and NaN are returned
    as they are.  The float is read exactly, as [±m·2^e]. *)
Definition Math_round (x : float) : float :=
  match Prim2SF x with
  | S754_finite s m e =>
      if (e <? 0)%Z then
        let v := if s then Z.neg m else Z.pos m in
        let n := ((2 * v + 2 ^ (- e)) / 2 ^ (1 - e))%Z in
        if (n =? 0)%Z then (if s then -0 else 0) else Z2float n
      else x
  | _ => x
  end.

(** One value of the [subjectStats] object. *)
Record SubjectStats : Type := mkSubjectStats {
  mistakes : float;
  total : float;
  knowledge_points : list jsstring
}.

Inductive Effect : Type :=
| ToastLoadFailed
| ConsoleError (err : JSVal).

(** [subjectStats] is an object keyed by subject; it is kept as its entries
    in the order [Object.values] enumerates them, the order the sum runs
    in. *)
Record State : Type := mkState {
  mistakeChats : list Chat;
  subjectStats : list (jsstring * SubjectStats);
  loading : bool;
  effects : list Effect
}.

Definition init : State := mkState [] [] false [].

Section Load.
Variable getTimeRange : JSVal → jsstring.

(** [loadData] from the settled [Promise.all] on; either response may be
    falsy ([None]). *)
Definition loadData_settle
    (outcome : Settled (option (list Chat) * option (list (jsstring * SubjectStats))))
    (st : State) : State :=
  match outcome with
  | Resolved (mistakesRes, statsRes) =>
      mkState
        (match mistakesRes with
         | Some chats => annotateChats getTimeRange chats
         | None => mistakeChats st
         end)
        (match statsRes with
         | Some stats => stats
         | None => subjectStats st
         end)
        false (effects st)
  | Rejected err =>
      mkState (mistakeChats st) (subjectStats st) false
        (effects st ++ [ConsoleError err; ToastLoadFailed])
  end.

End Load.

(** [$: totalMistakes = mistakeChats.length] *)
Definition totalMistakes (st : State) : float :=
  Z2float (Z.of_nat (length (mistakeChats st))).

(** [Object.values(subjectStats).reduce((acc, stats) => acc + stats.total, 0)] *)
Definition sumTotal (st : State) : float :=
  foldl (λ acc stats, acc + total stats) 0 (snd <$> subjectStats st).

(** A division, with its divisor put on record. *)
Definition divide (x y : float) : float * list float := (x / y, [y]).

(** The expression under "整体正确率": the number shown before the [%], and
    the divisors of the divisions its evaluation performed. *)
Definition overallAccuracy (st : State) : float * list float :=
  if 0 <? sumTotal st
  then
    let '(q, divisors) := divide (totalMistakes st) (sumTotal st) in
    (Math_round ((1 - q) * 100), divisors)
  else (100, []).

End MistakeBook.

(** ** Specification vocabulary *)

(** A call on a multi-valued facet of the search page. *)
Inductive FacetCall : Type :=
| AddMulti (v : jsstring)
| RemoveMulti (v : jsstring).

(** [v] was added by some call and not removed by a later one. *)
Definition addedNotRemoved (v : jsstring) (calls : list FacetCall) : Prop :=
  ∃ before after, calls = before ++ AddMulti v :: after ∧ RemoveMulti v ∉ after.

Definition knowledgePointCall (c : FacetCall) : SearchPage.State → SearchPage.State :=
  match c with
  | AddMulti v => SearchPage.addKnowledgePoint v
  | RemoveMulti v => SearchPage.removeKnowledgePoint v
  end.

Definition tagCall (c : FacetCall) : SearchPage.State → SearchPage.State :=
  match c with
  | AddMulti v => SearchPage.addTag v
  | RemoveMulti v => SearchPage.removeTag v
  end.

(** What a call does to the array of the facet it is made on: the array
    expressions of [addKnowledgePoint] / [addTag] and of
    [removeKnowledgePoint] / [removeTag]. *)
Definition addMulti (v : jsstring) (l : list jsstring) : list jsstring :=
  if negb (bool_decide (v ∈ l)) then l ++ [v] else l.

Definition removeMulti (v : jsstring) (l : list jsstring) : list jsstring :=
  filter (λ item, item ≠ v) l.

Definition facetCall (c : FacetCall) (l : list jsstring) : list jsstring :=
  match c with
  | AddMulti v => addMulti v l
  | RemoveMulti v => removeMulti v l
  end.

(** Running handlers one after the other, the first of the list first. *)
Definition runAll {S} (handlers : list (S → S)) (st : S) : S :=
  foldl (λ st h, h st) st handlers.

(** [t] is [input] without its leading and trailing white space. *)
Definition trimmedOf (input t : jsstring) : Prop :=
  ∃ pre post,
    input = pre ++ t ++ post
    ∧ Forall (λ c, isWhiteSpace c = true) pre
    ∧ Forall (λ c, isWhiteSpace c = true) post
    ∧ (∀ c, head t = Some c → isWhiteSpace c = false)
    ∧ (∀ c, last t = Some c → isWhiteSpace c = false).

(** What the user can do to the modal's two arrays: type into an input,
    press its add button, press the cross of an entry. *)
Inductive ModalEdit : Type :=
| TypeKnowledgePoint (text : jsstring)
| AddKnowledgePoint
| RemoveKnowledgePoint (index : nat)
| TypeTag (text : jsstring)
| AddTag
| RemoveTag (index : nat).

Definition modalEdit (e : ModalEdit) : SummaryModal.State → SummaryModal.State :=
  match e with
  | TypeKnowledgePoint text => SummaryModal.typeKnowledgePoint text
  | AddKnowledgePoint => SummaryModal.addKnowledgePoint
  | RemoveKnowledgePoint index => SummaryModal.removeKnowledgePoint index
  | TypeTag text => SummaryModal.typeTag text
  | AddTag => SummaryModal.addTag
  | RemoveTag index => SummaryModal.removeTag index
  end.

(** A call on a multi-valued facet of the modal: adding what was typed
    into the facet's input, or removing the entry at an index (the cross
    of the chip shown there). *)
Inductive ModalCall : Type :=
| ModalAdd (input : jsstring)
| ModalRemoveAt (index : nat).

Definition modalKnowledgePointCall (c : ModalCall)
    : SummaryModal.State → SummaryModal.State :=
  match c with
  | ModalAdd input =>
      λ st, SummaryModal.addKnowledgePoint (SummaryModal.typeKnowledgePoint input st)
  | ModalRemoveAt index => SummaryModal.removeKnowledgePoint index
  end.

Definition modalTagCall (c : ModalCall) : SummaryModal.State → SummaryModal.State :=
  match c with
  | ModalAdd input => λ st, SummaryModal.addTag (SummaryModal.typeTag input st)
  | ModalRemoveAt index => SummaryModal.removeTag index
  end.

(** The calls on values that a run of modal calls amounts to, [l] being
    the array as it stands: an add is of the input without its surrounding
    white space, and no call when that is empty; a removal at an index is
    of the value the array shows there, and no call past its end. *)
Fixpoint modalValueCalls (l : list jsstring) (calls : list ModalCall) : list FacetCall :=
  match calls with
  | [] => []
  | ModalAdd input :: rest =>
      if decide (trim input = []) then modalValueCalls l rest
      else AddMulti (trim input) :: modalValueCalls (addMulti (trim input) l) rest
  | ModalRemoveAt index :: rest =>
      match l !! index with
      | Some v => RemoveMulti v :: modalValueCalls (removeMulti v l) rest
      | None => modalValueCalls l rest
      end
  end.

(** An array of the modal is tidy when no entry repeats, none is empty and
    none has white space at either end. *)
Definition tidy (l : list jsstring) : Prop :=
  NoDup l ∧ Forall (λ v, v ≠ [] ∧ trim v = v) l.

(** The handlers of the search page that can run while old results are on
    display without writing them: a search whose provider rejects, and the
    edits of the three facets. *)
Inductive keepsResults (getTimeRange : JSVal → jsstring) :
    (SearchPage.State → SearchPage.State) → Prop :=
| keeps_search provider :
    (∀ criteria, ∃ err, provider criteria = Rejected err) →
    keepsResults getTimeRange (SearchPage.performSearch getTimeRange provider)
| keeps_addKnowledgePoint kp :
    keepsResults getTimeRange (SearchPage.addKnowledgePoint kp)
| keeps_removeKnowledgePoint kp :
    keepsResults getTimeRange (SearchPage.removeKnowledgePoint kp)
| keeps_addTag tag : keepsResults getTimeRange (SearchPage.addTag tag)
| keeps_removeTag tag : keepsResults getTimeRange (SearchPage.removeTag tag)
| keeps_selectSubject subject :
    keepsResults getTimeRange (SearchPage.selectSubject subject).

(** ** The search page as the user drives it

    The template's inline handlers, the guard of the search button, and the
    provider calls that are under way.  An event is one handler running; a
    click on a button also reaches the window's click handler, which is the
    event [WindowClick] right after it.  Whether a chip or a dropdown entry
    is on screen is not tracked: every handler may run at any time, except
    [performSearch], which only the search button starts. *)
Module SearchUI.
Import SearchPage.

(** [on:click={() => showSubjectDropdown = !showSubjectDropdown}] and its
    two siblings. *)
Definition toggleSubjectDropdown (st : State) : State :=
  mkState (searchResults st) (loading st) (searchPerformed st)
    (selectedSubject st) (selectedKnowledgePoints st) (selectedTags st)
    (negb (showSubjectDropdown st)) (showKnowledgePointsDropdown st)
    (showTagsDropdown st) (effects st).

Definition toggleKnowledgePointsDropdown (st : State) : State :=
  mkState (searchResults st) (loading st) (searchPerformed st)
    (selectedSubject st) (selectedKnowledgePoints st) (selectedTags st)
    (showSubjectDropdown st) (negb (showKnowledgePointsDropdown st))
    (showTagsDropdown st) (effects st).

Definition toggleTagsDropdown (st : State) : State :=
  mkState (searchResults st) (loading st) (searchPerformed st)
    (selectedSubject st) (selectedKnowledgePoints st) (selectedTags st)
    (showSubjectDropdown st) (showKnowledgePointsDropdown st)
    (negb (showTagsDropdown st)) (effects st).

(** [<svelte:window on:click>]: all three dropdowns close. *)
Definition windowClick (st : State) : State :=
  mkState (searchResults st) (loading st) (searchPerformed st)
    (selectedSubject st) (selectedKnowledgePoints st) (selectedTags st)
    false false false (effects st).

(** [disabled={loading || !hasFilters}] on the search button. *)
Definition searchDisabled (st : State) : bool :=
  loading st || negb (truthy (hasFilters st)).

Inductive Event : Type :=
| ClickToggleSubject
| ClickToggleKnowledgePoints
| ClickToggleTags
| ClickSubject (subject : jsstring)
| ClickKnowledgePoint (kp : jsstring)
| ClickTag (tag : jsstring)
| ClickRemoveKnowledgePoint (kp : jsstring)
| ClickRemoveTag (tag : jsstring)
| ClickSearch
| ClickClear
| WindowClick
| SearchSettles (outcome : Settled (option (list Chat))).

(** The component's state, and the criteria of the provider calls that
    have not settled yet, oldest first. *)
Record Page : Type := mkPage {
  state : State;
  pending : list (gmap string JSVal)
}.

Definition start : Page := mkPage init [].

Section Step.
Variable getTimeRange : JSVal → jsstring.

Definition step (p : Page) (e : Event) : Page :=
  match e with
  | ClickToggleSubject => mkPage (toggleSubjectDropdown (state p)) (pending p)
  | ClickToggleKnowledgePoints =>
      mkPage (toggleKnowledgePointsDropdown (state p)) (pending p)
  | ClickToggleTags => mkPage (toggleTagsDropdown (state p)) (pending p)
  | ClickSubject subject => mkPage (selectSubject subject (state p)) (pending p)
  | ClickKnowledgePoint kp => mkPage (addKnowledgePoint kp (state p)) (pending p)
  | ClickTag tag => mkPage (addTag tag (state p)) (pending p)
  | ClickRemoveKnowledgePoint kp =>
      mkPage (removeKnowledgePoint kp (state p)) (pending p)
  | ClickRemoveTag tag => mkPage (removeTag tag (state p)) (pending p)
  | ClickSearch =>
      if searchDisabled (state p) then p
      else
        let st1 := performSearch_begin (state p) in
        mkPage st1 (pending p ++ [buildCriteria st1])
  | ClickClear => mkPage (clearFilters (state p)) (pending p)
  | WindowClick => mkPage (windowClick (state p)) (pending p)
  | SearchSettles outcome =>
      match pending p with
      | [] => p
      | _ :: rest => mkPage (performSearch_settle getTimeRange outcome (state p)) rest
      end
  end.

Definition run (events : list Event) (p : Page) : Page := foldl step p events.

End Step.

End SearchUI.

(** A record that went through the annotation step: it has a
    [time_range] text. *)
Definition annotated (chat : Chat) : Prop :=
  ∃ text, chat !! "time_range" = Some (VStr text).

(** What every reachable page of the search page satisfies. *)
Definition searchInvariant (p : SearchUI.Page) : Prop :=
  length (SearchUI.pending p) ≤ 1
  ∧ (SearchPage.loading (SearchUI.state p) = true ↔ SearchUI.pending p ≠ [])
  ∧ Forall (λ criteria, criteria ≠ ∅) (SearchUI.pending p)
  ∧ Forall annotated (SearchPage.searchResults (SearchUI.state p)).

(** ** The modal as the user and the parent drive it *)
Module ModalUI.
Import SummaryModal.

(** A request to one of the two providers. *)
Inductive Call : Type :=
| SummarizeCall (id : jsstring)
| UpdateCall (id : jsstring) (form : UpdateForm).

(** [generateSummary] and [saveSummary] up to the [await]: the state, and
    the call made, if any. *)
Definition generateSummary_begin (st : State) : State * option Call :=
  if negb (truthy (VStr (chatId st))) then (st, None)
  else
    (mkState (show st) (chatId st) (existingSummary st) true
       (summaryData st) (newKnowledgePoint st) (newTag st) (effects st),
     Some (SummarizeCall (chatId st))).

Definition saveSummary_begin (st : State) : State * option Call :=
  if negb (truthy (VStr (chatId st))) then (st, None)
  else
    (mkState (show st) (chatId st) (existingSummary st) true
       (summaryData st) (newKnowledgePoint st) (newTag st) (effects st),
     Some (UpdateCall (chatId st)
             (mkUpdateForm (subject (summaryData st))
                (knowledge_points (summaryData st)) (tags (summaryData st))))).

(** An assignment to [show], from the cancel button, from the [Modal]
    component through [bind:show], or from the parent; and an assignment
    to the [existingSummary] prop.  Either makes the reactive statement
    run; Svelte skips it when a boolean is assigned the value it has. *)
Definition setShow (b : bool) (st : State) : State :=
  if bool_decide (show st = b) then st
  else
    reactive
      (mkState b (chatId st) (existingSummary st) (loading st)
         (summaryData st) (newKnowledgePoint st) (newTag st) (effects st)).

Definition setExistingSummary (es : option ExistingSummary) (st : State) : State :=
  reactive
    (mkState (show st) (chatId st) es (loading st)
       (summaryData st) (newKnowledgePoint st) (newTag st) (effects st)).

Definition setChatId (id : jsstring) (st : State) : State :=
  mkState (show st) id (existingSummary st) (loading st)
    (summaryData st) (newKnowledgePoint st) (newTag st) (effects st).

(** [bind:value={summaryData.subject}] on the select. *)
Definition selectSubject (s : jsstring) (st : State) : State :=
  mkState (show st) (chatId st) (existingSummary st) (loading st)
    (mkSummaryData s (knowledge_points (summaryData st))
       (summary (summaryData st)) (tags (summaryData st)))
    (newKnowledgePoint st) (newTag st) (effects st).

(** [{#if !summaryData.subject && !loading}]: the prompt with the first
    generate button is shown. *)
Definition promptShown (st : State) : bool :=
  negb (truthy (VStr (subject (summaryData st)))) && negb (loading st).

(** The footer's regenerate and save buttons: inside
    [{#if summaryData.subject}], with [disabled={loading}]. *)
Definition footerEnabled (st : State) : bool :=
  truthy (VStr (subject (summaryData st))) && negb (loading st).

Inductive Event : Type :=
| ClickGenerate
| ClickRegenerate
| ClickSave
| ClickCancel
| SelectSubject (s : jsstring)
| Edit (e : ModalEdit)
| SetShow (b : bool)
| SetChatId (id : jsstring)
| SetExistingSummary (es : option ExistingSummary)
| SummarizeSettles (outcome : Settled (option SummaryResult))
| UpdateSettles (outcome : Settled JSVal).

(** The component's state, the calls that have not settled yet, oldest
    first, and every call made so far. *)
Record Page : Type := mkPage {
  state : State;
  pending : list Call;
  sent : list Call
}.

Definition start : Page := mkPage init [] [].

Definition begun (p : Page) (r : State * option Call) : Page :=
  match r.2 with
  | Some call => mkPage r.1 (pending p ++ [call]) (sent p ++ [call])
  | None => mkPage r.1 (pending p) (sent p)
  end.

Definition step (p : Page) (e : Event) : Page :=
  match e with
  | ClickGenerate =>
      if promptShown (state p) then begun p (generateSummary_begin (state p)) else p
  | ClickRegenerate =>
      if footerEnabled (state p) then begun p (generateSummary_begin (state p)) else p
  | ClickSave =>
      if footerEnabled (state p) then begun p (saveSummary_begin (state p)) else p
  | ClickCancel => mkPage (setShow false (state p)) (pending p) (sent p)
  | SelectSubject s => mkPage (selectSubject s (state p)) (pending p) (sent p)
  | Edit e => mkPage (modalEdit e (state p)) (pending p) (sent p)
  | SetShow b => mkPage (setShow b (state p)) (pending p) (sent p)
  | SetChatId id => mkPage (setChatId id (state p)) (pending p) (sent p)
  | SetExistingSummary es =>
      mkPage (setExistingSummary es (state p)) (pending p) (sent p)
  | SummarizeSettles outcome =>
      match pending p with
      | SummarizeCall _ :: rest =>
          mkPage (generateSummary_settle outcome (state p)) rest (sent p)
      | _ => p
      end
  | UpdateSettles outcome =>
      match pending p with
      | UpdateCall _ _ :: rest =>
          mkPage (saveSummary_settle outcome (state p)) rest (sent p)
      | _ => p
      end
  end.

Definition run (events : list Event) (p : Page) : Page := foldl step p events.

(** A call names a chat, and a save carries a subject. *)
Definition wellFormed (c : Call) : Prop :=
  match c with
  | SummarizeCall id => id ≠ []
  | UpdateCall id form => id ≠ [] ∧ form_subject form ≠ []
  end.

End ModalUI.

(** What every reachable page of the modal satisfies. *)
Definition modalInvariant (p : ModalUI.Page) : Prop :=
  length (ModalUI.pending p) ≤ 1
  ∧ (SummaryModal.loading (ModalUI.state p) = true ↔ ModalUI.pending p ≠ [])
  ∧ Forall ModalUI.wellFormed (ModalUI.sent p).

(** ** The mistake book's handlers and derived values *)
Module MistakeBookPage.
Import MistakeBook.
Open Scope float_scope.

(** [Promise.all] of two promises: the pair of values when both resolve,
    else the reason of the one that rejected first ([secondFirst] says
    which, when both reject). *)
Definition promiseAll2 {A B} (a : Settled A) (b : Settled B) (secondFirst : bool)
    : Settled (A * B) :=
  match a, b with
  | Resolved x, Resolved y => Resolved (x, y)
  | Rejected err, Resolved _ => Rejected err
  | Resolved _, Rejected err => Rejected err
  | Rejected err1, Rejected err2 => Rejected (if secondFirst then err2 else err1)
  end.

(** What [toggleMistake] itself shows or logs. *)
Inductive ToggleEffect : Type :=
| ToastToggled
| ToastToggleFailed
| ToggleConsoleError (err : JSVal).

Section Handlers.
Variable getTimeRange : JSVal → jsstring.

(** [loadData] up to the [await]. *)
Definition loadData_begin (st : State) : State :=
  mkState (mistakeChats st) (subjectStats st) true (effects st).

(** One whole [loadData], given how its two requests settle. *)
Definition loadData
    (mistakesRes : Settled (option (list Chat)))
    (statsRes : Settled (option (list (jsstring * SubjectStats))))
    (secondFirst : bool) (st : State) : State :=
  loadData_settle getTimeRange (promiseAll2 mistakesRes statsRes secondFirst)
    (loadData_begin st).

(** One whole [toggleMistake]: the state, and what the handler itself
    showed (the reload's own toast, if any, is in the state and comes
    before [ToastToggled]).  [loadData] catches whatever it meets, so the
    handler's [catch] only sees the toggle request reject. *)
Definition toggleMistake
    (toggled : Settled JSVal)
    (mistakesRes : Settled (option (list Chat)))
    (statsRes : Settled (option (list (jsstring * SubjectStats))))
    (secondFirst : bool) (st : State) : State * list ToggleEffect :=
  match toggled with
  | Resolved _ => (loadData mistakesRes statsRes secondFirst st, [ToastToggled])
  | Rejected err => (st, [ToggleConsoleError err; ToastToggleFailed])
  end.

(** The two moments at which the book's state changes, whichever load
    they belong to and however loads overlap ([toggleMistake] has no
    guard): a load begins, a load's requests have settled. *)
Inductive LoadStep : Type :=
| LoadBegins
| LoadSettles (outcome : Settled (option (list Chat)
                                   * option (list (jsstring * SubjectStats)))).

Definition loadStep (st : State) (e : LoadStep) : State :=
  match e with
  | LoadBegins => loadData_begin st
  | LoadSettles outcome => loadData_settle getTimeRange outcome st
  end.

End Handlers.

(** [arr.sort(compare)], as the stable insertion sort: an element goes in
    front of the first one the comparison puts after it.  A comparison
    result that is not above zero, NaN included, keeps the order. *)
Fixpoint insertBy {A} (compare : A → A → float) (x : A) (l : list A) : list A :=
  match l with
  | [] => [x]
  | y :: l' => if 0 <? compare y x then x :: l else y :: insertBy compare x l'
  end.

Definition sortBy {A} (compare : A → A → float) (l : list A) : list A :=
  foldl (λ sorted x, insertBy compare x sorted) [] l.

(** [$: mostProblematicSubject = Object.entries(subjectStats)
      .filter(([_, stats]) => stats.mistakes > 0)
      .sort(([,a], [,b]) => b.mistakes - a.mistakes)[0]] *)
Definition mostProblematicSubject (st : State) : option (jsstring * SubjectStats) :=
  head
    (sortBy (λ a b, mistakes b.2 - mistakes a.2)
       (filter (λ entry, (0 <? mistakes entry.2) = true) (subjectStats st))).

(** [$: totalSubjects = Object.keys(subjectStats).length] *)
Definition totalSubjects (st : State) : nat := length (subjectStats st).

(** A subject card's bar width and its "错误率": the number before the
    [%], and the divisors of the divisions made. *)
Definition barWidth (stats : SubjectStats) : float * list float :=
  if 0 <? total stats
  then
    let '(q, divisors) := divide (mistakes stats) (total stats) in
    (q * 100, divisors)
  else (0, []).

Definition errorRate (stats : SubjectStats) : float * list float :=
  if 0 <? total stats
  then
    let '(q, divisors) := divide (mistakes stats) (total stats) in
    (Math_round (q * 100), divisors)
  else (0, []).

End MistakeBookPage.

(** * Properties *)

(** ** [trim] *)

Lemma trimStart_split (s : jsstring) :
  ∃ pre, s = pre ++ trimStart s
    ∧ Forall (λ c, isWhiteSpace c = true) pre
    ∧ (∀ c, head (trimStart s) = Some c → isWhiteSpace c = false).
Proof.
  induction s as [|c s IH]; simpl.
  - exists []. repeat split; [constructor | intros ? [=]].
  - destruct (isWhiteSpace c) eqn:Hc.
    + destruct IH as (pre & Heq & Hpre & Hhd).
      exists (c :: pre). repeat split; [simpl; congruence | by constructor | done].
    + exists []. repeat split; [constructor | simpl; congruence].
Qed.

Lemma trimStart_all_space (s : jsstring) :
  Forall (λ c, isWhiteSpace c = true) s → trimStart s = [].
Proof.
  induction 1 as [|c s Hc _ IH]; simpl; [done|]. by rewrite Hc.
Qed.

Lemma trimEnd_split (s : jsstring) :
  ∃ post, s = trimEnd s ++ post
    ∧ Forall (λ c, isWhiteSpace c = true) post
    ∧ (∀ c, last (trimEnd s) = Some c → isWhiteSpace c = false).
Proof.
  unfold trimEnd.
  destruct (trimStart_split (reverse s)) as (pre & Heq & Hpre & Hhd).
  exists (reverse pre). repeat split.
  - rewrite <- reverse_app, <- Heq. by rewrite reverse_involutive.
  - by apply Forall_reverse.
  - intros c. rewrite last_reverse. apply Hhd.
Qed.

Lemma trimEnd_head (s : jsstring) c :
  (∀ c, head s = Some c → isWhiteSpace c = false) →
  head (trimEnd s) = Some c → isWhiteSpace c = false.
Proof.
  intros Hs Hc.
  destruct (trimEnd_split s) as (post & Heq & _ & _).
  apply Hs. rewrite Heq.
  destruct (trimEnd s); [done|]. exact Hc.
Qed.

(** [trim] takes away exactly the white space at both ends. *)
Lemma trim_trimmedOf (s : jsstring) : trimmedOf s (trim s).
Proof.
  unfold trim.
  destruct (trimStart_split s) as (pre & Hs & Hpre & Hhd).
  destruct (trimEnd_split (trimStart s)) as (post & Hm & Hpost & Hlast).
  exists pre, post. repeat split; try done.
  - by rewrite <- Hm.
  - intros c. by apply trimEnd_head.
Qed.

(** White space at both ends of non-blank text determines the middle. *)
Lemma trimmedOf_unique (s t1 t2 : jsstring) :
  trimmedOf s t1 → trimmedOf s t2 → t1 = t2.
Proof.
  assert (Hstart : ∀ pre t post,
    Forall (λ c, isWhiteSpace c = true) pre →
    (∀ c, head t = Some c → isWhiteSpace c = false) →
    t ≠ [] → trimStart (pre ++ t ++ post) = t ++ post).
  { intros pre t post Hpre Hhd Hne.
    induction Hpre as [|c pre Hc _ IH]; simpl.
    - destruct t as [|c t]; [done|]. simpl. by rewrite (Hhd c eq_refl).
    - by rewrite Hc. }
  assert (Hend : ∀ t post,
    Forall (λ c, isWhiteSpace c = true) post →
    (∀ c, last t = Some c → isWhiteSpace c = false) →
    t ≠ [] → trimEnd (t ++ post) = t).
  { intros t post Hpost Hlast Hne. unfold trimEnd.
    rewrite reverse_app.
    replace (reverse post ++ reverse t) with (reverse post ++ reverse t ++ []) by by rewrite app_nil_r.
    rewrite Hstart.
    - by rewrite app_nil_r, reverse_involutive.
    - by apply Forall_reverse.
    - intros c. rewrite head_reverse. apply Hlast.
    - intros Hr. apply Hne. by rewrite <- (reverse_involutive t), Hr. }
  assert (Hblank : ∀ pre post,
    Forall (λ c, isWhiteSpace c = true) pre →
    Forall (λ c, isWhiteSpace c = true) post →
    trim (pre ++ [] ++ post) = []).
  { intros pre post Hpre Hpost. unfold trim.
    rewrite trimStart_all_space; [done|]. simpl. by apply Forall_app. }
  assert (Hkey : ∀ t, trimmedOf s t → trim s = t).
  { intros t (pre & post & -> & Hpre & Hpost & Hhd & Hlast).
    destruct (decide (t = [])) as [->|Hne].
    - by apply Hblank.
    - unfold trim. rewrite Hstart by done. by apply Hend. }
  intros H1 H2. by rewrite <- (Hkey _ H1), <- (Hkey _ H2).
Qed.

Lemma trim_blank (s : jsstring) :
  trim s = [] ↔ Forall (λ c, isWhiteSpace c = true) s.
Proof.
  split.
  - intros Ht. destruct (trim_trimmedOf s) as (pre & post & Hs & Hpre & Hpost & _).
    rewrite Ht in Hs. rewrite Hs. simpl. by apply Forall_app.
  - intros Hs. unfold trim. by rewrite trimStart_all_space.
Qed.

(** ** Removing at an index *)

(** Filtering out one index is deleting at it. *)
Lemma filterIndexFrom_past {A} i index (l : list A) :
  index < i → SummaryModal.filterIndexFrom i index l = l.
Proof.
  revert i. induction l as [|x l IH]; intros i Hi; simpl; [done|].
  destruct (Nat.eqb_spec i index) as [->|_]; [lia|]. simpl.
  by rewrite IH by lia.
Qed.

Lemma filterIndexFrom_delete {A} i index (l : list A) :
  i ≤ index → SummaryModal.filterIndexFrom i index l = delete (index - i) l.
Proof.
  revert i. induction l as [|x l IH]; intros i Hi; simpl; [done|].
  destruct (Nat.eqb_spec i index) as [->|Hne]; simpl.
  - rewrite Nat.sub_diag. simpl. apply filterIndexFrom_past. lia.
  - rewrite IH by lia.
    replace (index - i) with (S (index - S i)) by lia. done.
Qed.

Lemma filterIndexFrom_beyond {A} i index (l : list A) :
  i + length l ≤ index → SummaryModal.filterIndexFrom i index l = l.
Proof.
  revert i. induction l as [|x l IH]; intros i Hi; simpl in *; [done|].
  destruct (Nat.eqb_spec i index) as [->|_]; [lia|]. simpl.
  by rewrite IH by lia.
Qed.

(** ** The multi-valued facets, on the search page and in the modal *)
Section Facet.
Implicit Types (v x : jsstring) (l : list jsstring) (calls : list FacetCall).

Lemma addMulti_elem_of v x l : x ∈ addMulti v l ↔ x = v ∨ x ∈ l.
Proof.
  unfold addMulti. case_bool_decide; simpl.
  - split; [naive_solver|]. intros [->|?]; done.
  - rewrite elem_of_app, list_elem_of_singleton. tauto.
Qed.

Lemma removeMulti_elem_of v x l : x ∈ removeMulti v l ↔ x ≠ v ∧ x ∈ l.
Proof. unfold removeMulti. by rewrite list_elem_of_filter. Qed.

Lemma addMulti_NoDup v l : NoDup l → NoDup (addMulti v l).
Proof.
  unfold addMulti. case_bool_decide; simpl; [done|].
  intros Hl. apply NoDup_app. split_and!; [done| |apply NoDup_singleton].
  intros x Hx ->%list_elem_of_singleton. done.
Qed.

Lemma removeMulti_NoDup v l : NoDup l → NoDup (removeMulti v l).
Proof. apply NoDup_filter. Qed.

Lemma removeMulti_absent v l : v ∉ l → removeMulti v l = l.
Proof.
  unfold removeMulti. induction l as [|y l IH]; [done|].
  intros Hv. apply not_elem_of_cons in Hv as [Hne Hv].
  rewrite filter_cons_True by done. by rewrite IH.
Qed.

Lemma addedNotRemoved_nil v : ¬ addedNotRemoved v [].
Proof. intros (before & after & Heq & _). by destruct before. Qed.

Lemma addedNotRemoved_snoc_add v w calls :
  addedNotRemoved v (calls ++ [AddMulti w]) ↔ v = w ∨ addedNotRemoved v calls.
Proof.
  split.
  - intros (before & after & Heq & Hafter).
    destruct after as [|z after _] using rev_ind.
    + apply app_inj_tail in Heq as [_ [= ->]]. by left.
    + rewrite app_comm_cons, app_assoc in Heq.
      apply app_inj_tail in Heq as [-> <-]. right.
      exists before, after. split; [done|].
      intros Hin. apply Hafter. apply elem_of_app. by left.
  - intros [->|(before & after & -> & Hafter)].
    + exists calls, []. split; [done|]. apply not_elem_of_nil.
    + exists before, (after ++ [AddMulti w]). split.
      * by rewrite <- app_assoc.
      * rewrite elem_of_app, list_elem_of_singleton. intros [?|[=]]. done.
Qed.

Lemma addedNotRemoved_snoc_remove v w calls :
  addedNotRemoved v (calls ++ [RemoveMulti w]) ↔ v ≠ w ∧ addedNotRemoved v calls.
Proof.
  split.
  - intros (before & after & Heq & Hafter).
    destruct after as [|z after _] using rev_ind.
    + by apply app_inj_tail in Heq as [_ [=]].
    + rewrite app_comm_cons, app_assoc in Heq.
      apply app_inj_tail in Heq as [-> <-].
      rewrite elem_of_app, list_elem_of_singleton in Hafter. split.
      * intros ->. apply Hafter. by right.
      * exists before, after. split; [done|]. intros Hin. apply Hafter. by left.
  - intros [Hne (before & after & -> & Hafter)].
    exists before, (after ++ [RemoveMulti w]). split.
    + by rewrite <- app_assoc.
    + rewrite elem_of_app, list_elem_of_singleton. intros [?|[=]]; done.
Qed.

(** From the empty array, any sequence of calls leaves an array without
    repetition that holds the values added and not removed since. *)
Lemma facet_calls calls :
  let l := foldl (λ l c, facetCall c l) [] calls in
  NoDup l ∧ ∀ v, v ∈ l ↔ addedNotRemoved v calls.
Proof.
  induction calls as [|c calls IH] using rev_ind; simpl.
  - split; [constructor|]. intros v. split; [by intros ?%elem_of_nil|].
    by intros ?%addedNotRemoved_nil.
  - rewrite foldl_app. simpl in *. destruct IH as [Hnd Hmem]. destruct c as [w|w]; simpl.
    + split; [by apply addMulti_NoDup|]. intros v.
      rewrite addMulti_elem_of, addedNotRemoved_snoc_add, Hmem. done.
    + split; [by apply removeMulti_NoDup|]. intros v.
      rewrite removeMulti_elem_of, addedNotRemoved_snoc_remove, Hmem. done.
Qed.

Lemma knowledgePoint_calls calls (st : SearchPage.State) :
  SearchPage.selectedKnowledgePoints (runAll (knowledgePointCall <$> calls) st)
  = foldl (λ l c, facetCall c l) (SearchPage.selectedKnowledgePoints st) calls.
Proof.
  unfold runAll. revert st.
  induction calls as [|c calls IH]; intros st; simpl; [done|].
  rewrite IH. by destruct c.
Qed.

Lemma tag_calls calls (st : SearchPage.State) :
  SearchPage.selectedTags (runAll (tagCall <$> calls) st)
  = foldl (λ l c, facetCall c l) (SearchPage.selectedTags st) calls.
Proof.
  unfold runAll. revert st.
  induction calls as [|c calls IH]; intros st; simpl; [done|].
  rewrite IH. by destruct c.
Qed.

(** In an array without repetition, filtering a value out is deleting at
    the index it is shown at. *)
Lemma removeMulti_delete v l index :
  NoDup l → l !! index = Some v → removeMulti v l = delete index l.
Proof.
  unfold removeMulti. intros Hnd. revert index.
  induction Hnd as [|x l Hx Hnd IH]; intros index Hv; [done|].
  destruct index as [|index]; simpl in *.
  - injection Hv as ->. rewrite filter_cons_False by (intros H; by apply H).
    by apply removeMulti_absent.
  - assert (x ≠ v) as Hne.
    { intros ->. apply Hx. by eapply list_elem_of_lookup_2. }
    rewrite filter_cons_True by done. f_equal. by apply IH.
Qed.

Lemma modal_removeKnowledgePoint_delete index (st : SummaryModal.State) :
  SummaryModal.knowledge_points
    (SummaryModal.summaryData (SummaryModal.removeKnowledgePoint index st))
  = delete index (SummaryModal.knowledge_points (SummaryModal.summaryData st)).
Proof. simpl. rewrite filterIndexFrom_delete by lia. by rewrite Nat.sub_0_r. Qed.

Lemma modal_removeTag_delete index (st : SummaryModal.State) :
  SummaryModal.tags (SummaryModal.summaryData (SummaryModal.removeTag index st))
  = delete index (SummaryModal.tags (SummaryModal.summaryData st)).
Proof. simpl. rewrite filterIndexFrom_delete by lia. by rewrite Nat.sub_0_r. Qed.

Lemma delete_beyond {A} (l : list A) index : length l ≤ index → delete index l = l.
Proof.
  revert index. induction l as [|x l IH]; intros [|index] Hlen; simpl in *;
    try done; try lia.
  f_equal. apply IH. lia.
Qed.

Lemma modal_addKnowledgePoint_addMulti input (st : SummaryModal.State) :
  SummaryModal.knowledge_points
    (SummaryModal.summaryData
       (SummaryModal.addKnowledgePoint (SummaryModal.typeKnowledgePoint input st)))
  = if decide (trim input = [])
    then SummaryModal.knowledge_points (SummaryModal.summaryData st)
    else addMulti (trim input)
           (SummaryModal.knowledge_points (SummaryModal.summaryData st)).
Proof.
  unfold SummaryModal.addKnowledgePoint, addMulti. simpl.
  case_decide; repeat case_bool_decide; simpl; done.
Qed.

Lemma modal_addTag_addMulti input (st : SummaryModal.State) :
  SummaryModal.tags
    (SummaryModal.summaryData (SummaryModal.addTag (SummaryModal.typeTag input st)))
  = if decide (trim input = [])
    then SummaryModal.tags (SummaryModal.summaryData st)
    else addMulti (trim input) (SummaryModal.tags (SummaryModal.summaryData st)).
Proof.
  unfold SummaryModal.addTag, addMulti. simpl.
  case_decide; repeat case_bool_decide; simpl; done.
Qed.

(** A run of modal calls on an array without repetition is the run of
    the calls on values it amounts to. *)
Lemma modal_calls_values
    (facet : SummaryModal.State → list jsstring)
    (handler : ModalCall → SummaryModal.State → SummaryModal.State) :
  (∀ input st,
     facet (handler (ModalAdd input) st)
     = if decide (trim input = []) then facet st else addMulti (trim input) (facet st)) →
  (∀ index st, facet (handler (ModalRemoveAt index) st) = delete index (facet st)) →
  ∀ (mcalls : list ModalCall) st,
    NoDup (facet st) →
    facet (runAll (handler <$> mcalls) st)
    = foldl (λ l c, facetCall c l) (facet st) (modalValueCalls (facet st) mcalls).
Proof.
  intros Hadd Hremove mcalls. unfold runAll.
  induction mcalls as [|c mcalls IH]; intros st Hnd; simpl; [done|].
  destruct c as [input|index]; simpl.
  - rewrite IH.
    + rewrite Hadd. by case_decide.
    + rewrite Hadd. case_decide; [done|]. by apply addMulti_NoDup.
  - rewrite IH.
    + rewrite Hremove. destruct (facet st !! index) as [v|] eqn:Hv; simpl.
      * by rewrite (removeMulti_delete v _ index).
      * rewrite delete_beyond; [done|]. by apply lookup_ge_None.
    + rewrite Hremove. eapply sublist_NoDup; [exact Hnd|apply sublist_delete].
Qed.

(** C2: whatever sequence of add and remove calls is applied to the
    knowledge-point facet or to the tag facet from its empty value, the
    facet never holds a value twice and holds exactly the values added and
    not removed afterwards.  On the search page a call names the value; in
    any state, adding a value that is there leaves the facet as it is, and
    removing one that is not leaves the whole state as it is.  In the
    modal an add is of the input without its surrounding white space (of
    nothing when that is empty) and a removal is of the value shown at the
    index given: it deletes the entry at that index and no other, and past
    the end of the array it leaves the whole state as it is; adding an
    input whose value is there leaves the facet as it is. *)
Theorem facet_add_remove_set calls (st0 : SearchPage.State) :
  SearchPage.selectedKnowledgePoints st0 = [] →
  SearchPage.selectedTags st0 = [] →
  let kps := SearchPage.selectedKnowledgePoints
               (runAll (knowledgePointCall <$> calls) st0) in
  let tgs := SearchPage.selectedTags (runAll (tagCall <$> calls) st0) in
  (NoDup kps ∧ ∀ v, v ∈ kps ↔ addedNotRemoved v calls)
  ∧ (NoDup tgs ∧ ∀ v, v ∈ tgs ↔ addedNotRemoved v calls)
  ∧ (∀ st v, v ∈ SearchPage.selectedKnowledgePoints st →
       SearchPage.selectedKnowledgePoints (SearchPage.addKnowledgePoint v st)
       = SearchPage.selectedKnowledgePoints st)
  ∧ (∀ st v, v ∈ SearchPage.selectedTags st →
       SearchPage.selectedTags (SearchPage.addTag v st) = SearchPage.selectedTags st)
  ∧ (∀ st v, v ∉ SearchPage.selectedKnowledgePoints st →
       SearchPage.removeKnowledgePoint v st = st)
  ∧ (∀ st v, v ∉ SearchPage.selectedTags st → SearchPage.removeTag v st = st)
  ∧ (∀ (mcalls : list ModalCall) (m0 : SummaryModal.State),
       SummaryModal.knowledge_points (SummaryModal.summaryData m0) = [] →
       let mkps := SummaryModal.knowledge_points
                     (SummaryModal.summaryData
                        (runAll (modalKnowledgePointCall <$> mcalls) m0)) in
       NoDup mkps ∧ ∀ v, v ∈ mkps ↔ addedNotRemoved v (modalValueCalls [] mcalls))
  ∧ (∀ (mcalls : list ModalCall) (m0 : SummaryModal.State),
       SummaryModal.tags (SummaryModal.summaryData m0) = [] →
       let mtgs := SummaryModal.tags
                     (SummaryModal.summaryData (runAll (modalTagCall <$> mcalls) m0)) in
       NoDup mtgs ∧ ∀ v, v ∈ mtgs ↔ addedNotRemoved v (modalValueCalls [] mcalls))
  ∧ (∀ m input,
       trim input ∈ SummaryModal.knowledge_points (SummaryModal.summaryData m) →
       SummaryModal.knowledge_points
         (SummaryModal.summaryData (modalKnowledgePointCall (ModalAdd input) m))
       = SummaryModal.knowledge_points (SummaryModal.summaryData m))
  ∧ (∀ m input,
       trim input ∈ SummaryModal.tags (SummaryModal.summaryData m) →
       SummaryModal.tags (SummaryModal.summaryData (modalTagCall (ModalAdd input) m))
       = SummaryModal.tags (SummaryModal.summaryData m))
  ∧ (∀ m index,
       SummaryModal.knowledge_points
         (SummaryModal.summaryData (SummaryModal.removeKnowledgePoint index m))
       = delete index (SummaryModal.knowledge_points (SummaryModal.summaryData m)))
  ∧ (∀ m index,
       SummaryModal.tags (SummaryModal.summaryData (SummaryModal.removeTag index m))
       = delete index (SummaryModal.tags (SummaryModal.summaryData m)))
  ∧ (∀ m index,
       length (SummaryModal.knowledge_points (SummaryModal.summaryData m)) ≤ index →
       SummaryModal.removeKnowledgePoint index m = m)
  ∧ (∀ m index,
       length (SummaryModal.tags (SummaryModal.summaryData m)) ≤ index →
       SummaryModal.removeTag index m = m).
Proof.
  intros Hkps Htgs kps tgs. subst kps tgs.
  rewrite knowledgePoint_calls, tag_calls, Hkps, Htgs.
  split_and!.
  - apply facet_calls.
  - apply facet_calls.
  - apply facet_calls.
  - apply facet_calls.
  - intros st v Hv. simpl. by rewrite bool_decide_true.
  - intros st v Hv. simpl. by rewrite bool_decide_true.
  - intros [] v Hv. unfold SearchPage.removeKnowledgePoint. simpl in *.
    f_equal. by apply removeMulti_absent.
  - intros [] v Hv. unfold SearchPage.removeTag. simpl in *.
    f_equal. by apply removeMulti_absent.
  - intros mcalls m0 Hempty mkps. subst mkps.
    rewrite (modal_calls_values
               (λ st, SummaryModal.knowledge_points (SummaryModal.summaryData st))
               modalKnowledgePointCall
               modal_addKnowledgePoint_addMulti modal_removeKnowledgePoint_delete)
      by (rewrite Hempty; constructor).
    rewrite Hempty. apply facet_calls.
  - intros mcalls m0 Hempty mtgs. subst mtgs.
    rewrite (modal_calls_values
               (λ st, SummaryModal.tags (SummaryModal.summaryData st))
               modalTagCall modal_addTag_addMulti modal_removeTag_delete)
      by (rewrite Hempty; constructor).
    rewrite Hempty. apply facet_calls.
  - intros m input Hin. unfold modalKnowledgePointCall.
    rewrite modal_addKnowledgePoint_addMulti. case_decide; [done|].
    unfold addMulti. by rewrite bool_decide_true.
  - intros m input Hin. unfold modalTagCall.
    rewrite modal_addTag_addMulti. case_decide; [done|].
    unfold addMulti. by rewrite bool_decide_true.
  - intros m index. apply modal_removeKnowledgePoint_delete.
  - intros m index. apply modal_removeTag_delete.
  - intros [? ? ? ? []] index Hlen. unfold SummaryModal.removeKnowledgePoint.
    simpl in *. by rewrite filterIndexFrom_beyond by (simpl; lia).
  - intros [? ? ? ? []] index Hlen. unfold SummaryModal.removeTag.
    simpl in *. by rewrite filterIndexFrom_beyond by (simpl; lia).
Qed.

End Facet.

Lemma facet_add_remove_set_witness :
  let calls := [AddMulti (js "Algebra"); AddMulti (js "Limits");
                AddMulti (js "Algebra"); RemoveMulti (js "Limits");
                RemoveMulti (js "Sets")] in
  let kps := SearchPage.selectedKnowledgePoints
               (runAll (knowledgePointCall <$> calls) SearchPage.init) in
  let mcalls := [ModalAdd (js " Algebra "); ModalAdd (js "Limits");
                 ModalAdd (js "Algebra"); ModalAdd (js "   ");
                 ModalRemoveAt 1; ModalRemoveAt 5] in
  let mkps := SummaryModal.knowledge_points
                (SummaryModal.summaryData
                   (runAll (modalKnowledgePointCall <$> mcalls) SummaryModal.init)) in
  NoDup kps ∧ js "Algebra" ∈ kps
  ∧ SearchPage.removeKnowledgePoint (js "Sets") SearchPage.init = SearchPage.init
  ∧ NoDup mkps ∧ js "Algebra" ∈ mkps.
Proof.
  intros calls kps mcalls mkps.
  pose proof (facet_add_remove_set calls SearchPage.init eq_refl eq_refl)
    as (Hkps & _ & _ & _ & Hremove & _ & Hmodal & _).
  specialize (Hmodal mcalls SummaryModal.init eq_refl).
  split; [exact (proj1 Hkps)|]. split; [|split; [|split; [exact (proj1 Hmodal)|]]].
  - apply (proj2 Hkps).
    exists [], [AddMulti (js "Limits"); AddMulti (js "Algebra");
                RemoveMulti (js "Limits"); RemoveMulti (js "Sets")].
    split; [reflexivity|].
    rewrite !not_elem_of_cons. repeat split; try discriminate.
    apply not_elem_of_nil.
  - apply Hremove. simpl. apply not_elem_of_nil.
  - apply (proj2 Hmodal).
    exists [], [AddMulti (js "Limits"); AddMulti (js "Algebra");
                RemoveMulti (js "Limits")].
    split; [reflexivity|].
    rewrite !not_elem_of_cons. repeat split; try discriminate.
    apply not_elem_of_nil.
Defined.

Example facet_calls_value :
  SearchPage.selectedKnowledgePoints
    (runAll (knowledgePointCall <$>
               [AddMulti (js "Algebra"); AddMulti (js "Limits");
                AddMulti (js "Algebra"); RemoveMulti (js "Limits");
                AddMulti (js "Sets")])
       SearchPage.init)
  = [js "Algebra"; js "Sets"].
Proof. vm_compute. reflexivity. Qed.

(** ** The search page's criteria, flag and reset *)
Section Criteria.
Import SearchPage.

Lemma buildCriteria_subject st :
  buildCriteria st !! "subject"
  = if decide (selectedSubject st = []) then None else Some (VStr (selectedSubject st)).
Proof.
  unfold buildCriteria. simpl.
  case_bool_decide; case_decide; try done; simpl;
    repeat case_match; by simplify_map_eq.
Qed.

Lemma buildCriteria_knowledge_points st :
  buildCriteria st !! "knowledge_points"
  = if decide (selectedKnowledgePoints st = []) then None
    else Some (VArr (VStr <$> selectedKnowledgePoints st)).
Proof.
  unfold buildCriteria. simpl.
  destruct (selectedKnowledgePoints st) eqn:Hk; simpl;
    case_bool_decide; simpl; repeat case_match; by simplify_map_eq.
Qed.

Lemma buildCriteria_tags st :
  buildCriteria st !! "tags"
  = if decide (selectedTags st = []) then None
    else Some (VArr (VStr <$> selectedTags st)).
Proof.
  unfold buildCriteria. simpl.
  destruct (selectedTags st) eqn:Ht; simpl;
    case_bool_decide; simpl; repeat case_match; by simplify_map_eq.
Qed.

Lemma buildCriteria_other st k :
  k ≠ "subject" → k ≠ "knowledge_points" → k ≠ "tags" → buildCriteria st !! k = None.
Proof.
  intros. unfold buildCriteria. repeat case_match; by simplify_map_eq.
Qed.

(** C4: the criteria hold the subject exactly when it is not the empty
    string, the knowledge points exactly when there is one, the tags
    exactly when there is one, each with the facet's value, and no other
    key; for subject "Math", knowledge points ["Algebra"] and no tags they
    are [{subject: "Math", knowledge_points: ["Algebra"]}], without
    [tags]. *)
Theorem buildCriteria_nonempty_facets :
  (∀ st,
     buildCriteria st !! "subject"
     = (if decide (selectedSubject st = []) then None
        else Some (VStr (selectedSubject st)))
     ∧ buildCriteria st !! "knowledge_points"
       = (if decide (selectedKnowledgePoints st = []) then None
          else Some (VArr (VStr <$> selectedKnowledgePoints st)))
     ∧ buildCriteria st !! "tags"
       = (if decide (selectedTags st = []) then None
          else Some (VArr (VStr <$> selectedTags st)))
     ∧ ∀ k, k ≠ "subject" → k ≠ "knowledge_points" → k ≠ "tags" →
         buildCriteria st !! k = None)
  ∧ (∀ results busy performed d1 d2 d3 eff,
       let st := mkState results busy performed
                   (js "Math") [js "Algebra"] [] d1 d2 d3 eff in
       buildCriteria st
       = {[ "subject" := VStr (js "Math");
            "knowledge_points" := VArr [VStr (js "Algebra")] ]}
       ∧ buildCriteria st !! "tags" = None).
Proof.
  split.
  - intros st. split_and!.
    + apply buildCriteria_subject.
    + apply buildCriteria_knowledge_points.
    + apply buildCriteria_tags.
    + apply buildCriteria_other.
  - intros. subst st. split; [|done].
    apply map_eq. intros k. unfold buildCriteria. simpl.
    destruct (decide (k = "subject")) as [->|?]; [done|].
    destruct (decide (k = "knowledge_points")) as [->|?]; [done|].
    by simplify_map_eq.
Qed.

(** [hasFilters] is falsy exactly when all three facets are empty. *)
Lemma hasFilters_falsy st :
  (truthy (hasFilters st) = false →
   selectedSubject st = [] ∧ selectedKnowledgePoints st = [] ∧ selectedTags st = [])
  ∧ (selectedSubject st = [] → selectedKnowledgePoints st = [] → selectedTags st = [] →
     truthy (hasFilters st) = false).
Proof.
  unfold hasFilters. split.
  - destruct (selectedSubject st) as [|c s]; simpl; [|done].
    destruct (selectedKnowledgePoints st) as [|kp kps]; simpl; [|done].
    by destruct (selectedTags st).
  - by intros -> -> ->.
Qed.

(** C3: [hasFilters] is truthy exactly when the criteria [performSearch]
    would send are not the empty object. *)
Theorem hasFilters_iff_criteria st :
  truthy (hasFilters st) = true ↔ buildCriteria st ≠ ∅.
Proof.
  split.
  - intros Hflag Hnone.
    pose proof (buildCriteria_subject st) as Hs.
    pose proof (buildCriteria_knowledge_points st) as Hk.
    pose proof (buildCriteria_tags st) as Ht.
    rewrite Hnone, lookup_empty in Hs, Hk, Ht.
    repeat case_decide; try done.
    rewrite (proj2 (hasFilters_falsy st)) in Hflag; done.
  - intros Hsome. destruct (truthy (hasFilters st)) eqn:Hflag; [done|].
    destruct Hsome. apply (proj1 (hasFilters_falsy st)) in Hflag as (Hs & Hk & Ht).
    unfold buildCriteria. by rewrite Hs, Hk, Ht.
Qed.

(** C5: after [clearFilters] the subject is the empty string, both arrays
    and the result list are empty, whatever they were before, the criteria
    built next are the empty object and [hasFilters] is falsy. *)
Theorem clearFilters_resets st :
  selectedSubject (clearFilters st) = []
  ∧ selectedKnowledgePoints (clearFilters st) = []
  ∧ selectedTags (clearFilters st) = []
  ∧ searchResults (clearFilters st) = []
  ∧ searchPerformed (clearFilters st) = false
  ∧ buildCriteria (clearFilters st) = ∅
  ∧ truthy (hasFilters (clearFilters st)) = false.
Proof.
  split_and!; try reflexivity.
Qed.

End Criteria.

Lemma buildCriteria_nonempty_facets_witness :
  let st := SearchPage.mkState [] false false (js "Math") [js "Algebra"] []
              false false false [] in
  SearchPage.buildCriteria st !! "summary" = None
  ∧ SearchPage.buildCriteria st !! "subject" = Some (VStr (js "Math")).
Proof.
  intros st.
  pose proof (proj1 buildCriteria_nonempty_facets st) as (Hsubject & _ & _ & Hother).
  split.
  - apply Hother; discriminate.
  - exact Hsubject.
Defined.

(** ** Searching *)
Section SearchFailure.
Import SearchPage.
Variable getTimeRange : JSVal → jsstring.

(** Neither half of [performSearch] touches the facets. *)
Lemma performSearch_facets provider st :
  selectedSubject (performSearch getTimeRange provider st) = selectedSubject st
  ∧ selectedKnowledgePoints (performSearch getTimeRange provider st)
    = selectedKnowledgePoints st
  ∧ selectedTags (performSearch getTimeRange provider st) = selectedTags st.
Proof.
  unfold performSearch.
  destruct (provider _) as [[results|]|err]; done.
Qed.

Lemma performSearch_rejected provider st err :
  provider (buildCriteria st) = Rejected err →
  performSearch getTimeRange provider st
  = mkState (searchResults st) false true
      (selectedSubject st) (selectedKnowledgePoints st) (selectedTags st)
      (showSubjectDropdown st) (showKnowledgePointsDropdown st) (showTagsDropdown st)
      (effects st ++ [ConsoleError err; ToastSearchFailed]).
Proof.
  intros Hp. unfold performSearch.
  change (buildCriteria (performSearch_begin st)) with (buildCriteria st).
  by rewrite Hp.
Qed.

Lemma keepsResults_sound handler st :
  keepsResults getTimeRange handler → searchResults (handler st) = searchResults st.
Proof.
  destruct 1 as [provider Hrej| | | | |]; try done.
  destruct (Hrej (buildCriteria st)) as [err Herr].
  by rewrite (performSearch_rejected _ _ _ Herr).
Qed.

Lemma keepsResults_runAll handlers st :
  Forall (keepsResults getTimeRange) handlers →
  searchResults (runAll handlers st) = searchResults st.
Proof.
  unfold runAll. intros Hall. revert st.
  induction Hall as [|h handlers Hh _ IH]; intros st; simpl; [done|].
  rewrite IH. by apply keepsResults_sound.
Qed.

(** C1: a [performSearch] whose provider call rejects leaves
    [searchResults] as it was, ends with [loading] off and reports the
    failure in a toast; and after any number of searches against providers
    that always reject, [searchResults] still is what it was at the
    start. *)
Theorem performSearch_failure_keeps_results :
  (∀ provider st err,
     provider (buildCriteria st) = Rejected err →
     searchResults (performSearch getTimeRange provider st) = searchResults st
     ∧ loading (performSearch getTimeRange provider st) = false
     ∧ effects (performSearch getTimeRange provider st)
       = effects st ++ [ConsoleError err; ToastSearchFailed])
  ∧ (∀ providers st,
       Forall (λ provider, ∀ criteria, ∃ err, provider criteria = Rejected err)
         providers →
       searchResults (runAll (performSearch getTimeRange <$> providers) st)
       = searchResults st).
Proof.
  split.
  - intros provider st err Hp.
    by rewrite (performSearch_rejected _ _ _ Hp).
  - intros providers st Hall. apply keepsResults_runAll.
    apply Forall_fmap. eapply Forall_impl; [exact Hall|].
    intros provider Hrej. by constructor.
Qed.

(** Failed searches in between edits of the facets: whatever the order,
    the results on display stay the ones there were. *)
Theorem failed_searches_amid_edits handlers st :
  Forall (keepsResults getTimeRange) handlers →
  searchResults (runAll handlers st) = searchResults st.
Proof. apply keepsResults_runAll. Qed.

(** A search whose provider resolves with chats stores their annotated
    copies in place of the old results, reports their number and ends with
    [loading] off; the facets stay as they were. *)
Theorem performSearch_success_replaces provider st results :
  provider (buildCriteria st) = Resolved (Some results) →
  performSearch getTimeRange provider st
  = mkState (annotateChats getTimeRange results) false true
      (selectedSubject st) (selectedKnowledgePoints st) (selectedTags st)
      (showSubjectDropdown st) (showKnowledgePointsDropdown st) (showTagsDropdown st)
      (effects st ++ [ToastFound (length results)]).
Proof.
  intros Hp. unfold performSearch.
  change (buildCriteria (performSearch_begin st)) with (buildCriteria st).
  rewrite Hp. simpl. unfold annotateChats. by rewrite length_fmap.
Qed.

End SearchFailure.

Lemma failed_searches_amid_edits_witness :
  let fmt : JSVal → jsstring := λ _, js "just now" in
  let down : gmap string JSVal → Settled (option (list Chat)) := λ _, Rejected VNull in
  let st := SearchPage.mkState [ {[ "id" := VStr (js "c1") ]} ] false true
              (js "Math") [] [] false false false [] in
  SearchPage.searchResults
    (runAll [SearchPage.addTag (js "exam"); SearchPage.performSearch fmt down;
             SearchPage.selectSubject []; SearchPage.performSearch fmt down] st)
  = [ {[ "id" := VStr (js "c1") ]} ].
Proof.
  intros fmt down st.
  apply (failed_searches_amid_edits fmt).
  repeat constructor; intros criteria; exists VNull; reflexivity.
Defined.

Lemma performSearch_success_replaces_witness :
  let fmt : JSVal → jsstring := λ _, js "just now" in
  let found : gmap string JSVal → Settled (option (list Chat)) :=
    λ _, Resolved (Some [ {[ "id" := VStr (js "c2") ]} ]) in
  let st := SearchPage.mkState [ {[ "id" := VStr (js "c1") ]} ] false false
              (js "Math") [] [] false false false [] in
  SearchPage.performSearch fmt found st
  = SearchPage.mkState
      [ {[ "id" := VStr (js "c2"); "time_range" := VStr (js "just now") ]} ]
      false true (js "Math") [] [] false false false [SearchPage.ToastFound 1].
Proof.
  intros fmt found st.
  rewrite (performSearch_success_replaces fmt found st _ eq_refl).
  vm_compute. reflexivity.
Defined.

Lemma performSearch_failure_keeps_results_witness :
  let fmt : JSVal → jsstring := λ _, js "just now" in
  let down : gmap string JSVal → Settled (option (list Chat)) :=
    λ _, Rejected (VStr (js "503")) in
  let st := SearchPage.mkState [ {[ "id" := VStr (js "c1") ]} ] false true
              (js "Math") [] [] false false false [] in
  SearchPage.searchResults (runAll (SearchPage.performSearch fmt <$> [down; down; down]) st)
  = [ {[ "id" := VStr (js "c1") ]} ]
  ∧ SearchPage.effects (SearchPage.performSearch fmt down st)
    = [SearchPage.ConsoleError (VStr (js "503")); SearchPage.ToastSearchFailed].
Proof.
  intros fmt down st. split.
  - apply (proj2 (performSearch_failure_keeps_results fmt) [down; down; down] st).
    repeat constructor; intros criteria; exists (VStr (js "503")); reflexivity.
  - apply (proj1 (performSearch_failure_keeps_results fmt) down st (VStr (js "503"))).
    reflexivity.
Defined.

(** ** Result annotation *)
Section AnnotationFacts.
Variable getTimeRange : JSVal → jsstring.

Lemma annotateChat_time_range chat :
  annotateChat getTimeRange chat !! "time_range"
  = Some (VStr (getTimeRange (getProp chat "updated_at"))).
Proof. unfold annotateChat. by simplify_map_eq. Qed.

Lemma annotateChat_other chat k :
  k ≠ "time_range" → annotateChat getTimeRange chat !! k = chat !! k.
Proof. intros. unfold annotateChat. by simplify_map_eq. Qed.

Lemma annotateChats_lookup chats i :
  annotateChats getTimeRange chats !! i = annotateChat getTimeRange <$> chats !! i.
Proof. apply list_lookup_fmap. Qed.

(** On references: every object there was is still there, unchanged, and
    each output reference is a fresh object, the annotated copy of the
    input at the same position. *)
Lemma mapAnnotate_copies (h : list Chat) (refs : list nat) :
  Forall (λ r, r < length h) refs →
  ∃ h' out,
    mapAnnotate getTimeRange h refs = Some (h', out)
    ∧ h `prefix_of` h'
    ∧ length out = length refs
    ∧ ∀ i r, refs !! i = Some r →
        ∃ r', out !! i = Some r' ∧ length h ≤ r'
              ∧ h' !! r' = annotateChat getTimeRange <$> h !! r.
Proof.
  intros Hrefs. revert h Hrefs.
  induction refs as [|r refs IH]; intros h Hrefs; simpl.
  - exists h, []. split_and!; done.
  - apply Forall_cons in Hrefs as [Hr Hrefs].
    destruct (lookup_lt_is_Some_2 h r Hr) as [chat Hchat].
    rewrite Hchat. simpl.
    set (h1 := h ++ [annotateChat getTimeRange chat]).
    destruct (IH h1) as (h2 & out & Hrun & Hpre & Hlen & Hout).
    { eapply Forall_impl; [exact Hrefs|]. intros a Ha. simpl in Ha.
      unfold h1. rewrite length_app. simpl. lia. }
    rewrite Hrun. simpl.
    exists h2, (length h :: out). split_and!; try done.
    + etrans; [|exact Hpre]. by apply prefix_app_r.
    + simpl. by rewrite Hlen.
    + intros [|i] a Ha; simpl in *.
      * injection Ha as <-. exists (length h). split_and!; try done.
        rewrite Hchat. simpl.
        apply (prefix_lookup_Some h1); [|done].
        unfold h1. by rewrite lookup_app_r, Nat.sub_diag.
      * destruct (Hout i a Ha) as (r' & Hr' & Hfresh & Hcopy).
        exists r'. split_and!; try done.
        -- unfold h1 in Hfresh. rewrite length_app in Hfresh. lia.
        -- rewrite Hcopy. unfold h1. rewrite lookup_app_l; [done|].
           by eapply Forall_lookup_1 in Hrefs.
Qed.

(** C6: annotating a list of records gives a list of the same length
    whose record at each position is the input's record at that position
    with [time_range] set to the formatter's text for its [updated_at] and
    every other field as it was; this is what [performSearch] stores and
    what the mistake book's [loadData] stores.  On references, the step
    allocates a fresh object per record and leaves every object there was,
    the inputs among them, as it was.  The record [{id: "c1", updated_at:
    1700000000}], with a formatter giving "3 days ago" for that timestamp,
    becomes the same record with [time_range: "3 days ago"]. *)
Theorem annotation_preserves_records :
  (∀ chats,
     length (annotateChats getTimeRange chats) = length chats
     ∧ ∀ i chat, chats !! i = Some chat →
         ∃ out, annotateChats getTimeRange chats !! i = Some out
           ∧ out !! "time_range" = Some (VStr (getTimeRange (getProp chat "updated_at")))
           ∧ ∀ k, k ≠ "time_range" → out !! k = chat !! k)
  ∧ (∀ st chats,
       SearchPage.searchResults
         (SearchPage.performSearch_settle getTimeRange (Resolved (Some chats)) st)
       = annotateChats getTimeRange chats)
  ∧ (∀ st chats statsRes,
       MistakeBook.mistakeChats
         (MistakeBook.loadData_settle getTimeRange (Resolved (Some chats, statsRes)) st)
       = annotateChats getTimeRange chats)
  ∧ (∀ (h : list Chat) (refs : list nat),
       Forall (λ r, r < length h) refs →
       ∃ h' out,
         mapAnnotate getTimeRange h refs = Some (h', out)
         ∧ (∀ a o, h !! a = Some o → h' !! a = Some o)
         ∧ length out = length refs
         ∧ ∀ i r, refs !! i = Some r →
             ∃ r', out !! i = Some r' ∧ length h ≤ r'
                   ∧ h' !! r' = annotateChat getTimeRange <$> h !! r)
  ∧ (getTimeRange (VNum 1700000000) = js "3 days ago" →
     annotateChats getTimeRange
       [ {[ "id" := VStr (js "c1"); "updated_at" := VNum 1700000000 ]} ]
     = [ {[ "id" := VStr (js "c1"); "updated_at" := VNum 1700000000;
            "time_range" := VStr (js "3 days ago") ]} ]).
Proof.
  split_and!.
  - intros chats. split; [apply length_fmap|].
    intros i chat Hi. exists (annotateChat getTimeRange chat). split_and!.
    + by rewrite annotateChats_lookup, Hi.
    + apply annotateChat_time_range.
    + intros k. apply annotateChat_other.
  - done.
  - done.
  - intros h refs Hrefs.
    destruct (mapAnnotate_copies h refs Hrefs) as (h' & out & Hrun & Hpre & Hlen & Hout).
    exists h', out. split_and!; try done.
    intros a o Ha. by apply (prefix_lookup_Some h).
  - intros Hfmt. unfold annotateChats, annotateChat, getProp. simpl.
    f_equal. apply map_eq. intros k.
    assert (({[ "id" := VStr (js "c1"); "updated_at" := VNum 1700000000 ]} : Chat)
              !! "updated_at" = Some (VNum 1700000000)) as -> by done.
    simpl. rewrite Hfmt.
    destruct (decide (k = "time_range")) as [->|?]; [by simplify_map_eq|].
    destruct (decide (k = "id")) as [->|?]; [by simplify_map_eq|].
    destruct (decide (k = "updated_at")) as [->|?]; by simplify_map_eq.
Qed.

End AnnotationFacts.

Lemma annotation_preserves_records_witness :
  let fmt : JSVal → jsstring :=
    λ v, match v with
         | VNum x => if PrimFloat.eqb x 1700000000 then js "3 days ago" else js "earlier"
         | _ => js "unknown"
         end in
  let chat : Chat := {[ "id" := VStr (js "c1"); "updated_at" := VNum 1700000000 ]} in
  annotateChats fmt [chat]
  = [ {[ "id" := VStr (js "c1"); "updated_at" := VNum 1700000000;
         "time_range" := VStr (js "3 days ago") ]} ]
  ∧ ∃ h' out,
      mapAnnotate fmt [chat] [0; 0] = Some (h', out)
      ∧ (∀ a o, [chat] !! a = Some o → h' !! a = Some o)
      ∧ length out = 2
      ∧ ∀ i r, [0; 0] !! i = Some r →
          ∃ r', out !! i = Some r' ∧ 1 ≤ r'
                ∧ h' !! r' = annotateChat fmt <$> [chat] !! r.
Proof.
  intros fmt chat.
  pose proof (annotation_preserves_records fmt) as (_ & _ & _ & Hrefs & Hexample).
  split.
  - apply Hexample. reflexivity.
  - apply (Hrefs [chat] [0; 0]). repeat constructor.
Defined.

(** ** The chat-summary modal *)
Section Modal.
Import SummaryModal.

(** No handler of the modal writes [summaryData] except the four that
    edit the two arrays, [generateSummary] and [resetForm]; [saveSummary]
    in particular leaves it alone however the call ends. *)
Lemma saveSummary_summaryData update st :
  summaryData (saveSummary update st) = summaryData st.
Proof.
  unfold saveSummary. case_match; [done|].
  destruct (update _ _) as [result|err]; simpl; [|done].
  destruct (truthy result); done.
Qed.

(** C7: when the modal has a chat to save for, a provider call that
    resolves with a truthy result makes [saveSummary] show the success
    toast and dispatch [updated] with [summaryData], and close the modal; a
    call that rejects leaves [summaryData], both input fields and [show] as
    they were and reports the failure. *)
Theorem saveSummary_notifies_or_keeps update st :
  truthy (VStr (chatId st)) = true →
  let call :=
    update (chatId st)
      (mkUpdateForm (subject (summaryData st)) (knowledge_points (summaryData st))
         (tags (summaryData st))) in
  (∀ result, call = Resolved result → truthy result = true →
     effects (saveSummary update st)
     = effects st ++ [ToastInfoUpdated; Dispatch "updated" (summaryData st)]
     ∧ show (saveSummary update st) = false
     ∧ summaryData (saveSummary update st) = summaryData st)
  ∧ (∀ err, call = Rejected err →
       summaryData (saveSummary update st) = summaryData st
       ∧ newKnowledgePoint (saveSummary update st) = newKnowledgePoint st
       ∧ newTag (saveSummary update st) = newTag st
       ∧ show (saveSummary update st) = show st
       ∧ loading (saveSummary update st) = false
       ∧ effects (saveSummary update st)
         = effects st ++ [ConsoleError err; ToastSaveFailed]).
Proof.
  intros Hid call. subst call. unfold saveSummary. rewrite Hid. simpl. split.
  - intros result -> Hres. simpl. rewrite Hres. done.
  - intros err ->. done.
Qed.

Lemma saveSummary_notifies_or_keeps_witness :
  let st := mkState true (js "c1") None false
              (mkSummaryData (js "Math") [js "Algebra"] (js "notes") [js "exam"])
              [] [] [] in
  (let ok : jsstring → UpdateForm → Settled JSVal := λ _ _, Resolved (VBool true) in
   effects (saveSummary ok st)
   = [ToastInfoUpdated; Dispatch "updated" (summaryData st)])
  ∧ (let ko : jsstring → UpdateForm → Settled JSVal := λ _ _, Rejected VNull in
     summaryData (saveSummary ko st) = summaryData st).
Proof.
  intros st. split.
  - intros ok.
    apply (proj1 (saveSummary_notifies_or_keeps ok st eq_refl) (VBool true) eq_refl eq_refl).
  - intros ko.
    apply (proj2 (saveSummary_notifies_or_keeps ko st eq_refl) VNull eq_refl).
Defined.

(** C9: when the modal has a chat and the provider resolves with a
    result, [generateSummary] sets subject, knowledge points and summary to
    the result's and tags to the existing summary's tags, or to the empty
    array when there is no existing summary or it has no tags; the
    result's own tags play no part. *)
Theorem generateSummary_keeps_existing_tags summarize st result :
  truthy (VStr (chatId st)) = true →
  summarize (chatId st) = Resolved (Some result) →
  summaryData (generateSummary summarize st)
  = mkSummaryData (res_subject result) (res_knowledge_points result)
      (res_summary result)
      (match existingSummary st with
       | Some existing =>
           match ex_tags existing with Some tags => tags | None => [] end
       | None => []
       end).
Proof.
  intros Hid Hres. unfold generateSummary. rewrite Hid. simpl. rewrite Hres. simpl.
  f_equal. by destruct (existingSummary st) as [[? ? ? []]|].
Qed.

Lemma generateSummary_keeps_existing_tags_witness :
  let st := mkState true (js "c1")
              (Some (mkExistingSummary None None None (Some [js "exam"])))
              false (mkSummaryData [] [] [] []) [] [] [] in
  let summarize : jsstring → Settled (option SummaryResult) :=
    λ _, Resolved (Some (mkSummaryResult (js "Math") [js "Algebra"] (js "notes")
                           (Some [js "provider tag"]))) in
  summaryData (generateSummary summarize st)
  = mkSummaryData (js "Math") [js "Algebra"] (js "notes") [js "exam"].
Proof.
  intros st summarize.
  apply (generateSummary_keeps_existing_tags summarize st _ eq_refl eq_refl).
Defined.

(** C10: [addKnowledgePoint] and [addTag] work on the input without its
    leading and trailing white space.  When that is empty (the input is
    empty or all white space) or already in the array, the state is left as
    it is, input field included; otherwise it is appended to the array and
    the input field is emptied. *)
Theorem modal_add_trims st :
  (∃ t, trimmedOf (newKnowledgePoint st) t
     ∧ (t = [] ↔ Forall (λ c, isWhiteSpace c = true) (newKnowledgePoint st))
     ∧ if decide (t = [] ∨ t ∈ knowledge_points (summaryData st))
       then addKnowledgePoint st = st
       else addKnowledgePoint st
            = mkState (show st) (chatId st) (existingSummary st) (loading st)
                (mkSummaryData (subject (summaryData st))
                   (knowledge_points (summaryData st) ++ [t])
                   (summary (summaryData st)) (tags (summaryData st)))
                [] (newTag st) (effects st))
  ∧ (∃ t, trimmedOf (newTag st) t
       ∧ (t = [] ↔ Forall (λ c, isWhiteSpace c = true) (newTag st))
       ∧ if decide (t = [] ∨ t ∈ tags (summaryData st))
         then addTag st = st
         else addTag st
              = mkState (show st) (chatId st) (existingSummary st) (loading st)
                  (mkSummaryData (subject (summaryData st))
                     (knowledge_points (summaryData st))
                     (summary (summaryData st)) (tags (summaryData st) ++ [t]))
                  (newKnowledgePoint st) [] (effects st)).
Proof.
  split.
  - exists (trim (newKnowledgePoint st)).
    split; [apply trim_trimmedOf|]. split; [apply trim_blank|].
    unfold addKnowledgePoint. simpl.
    case_decide as Hd; repeat case_bool_decide; simpl; try done; tauto.
  - exists (trim (newTag st)).
    split; [apply trim_trimmedOf|]. split; [apply trim_blank|].
    unfold addTag. simpl.
    case_decide as Hd; repeat case_bool_decide; simpl; try done; tauto.
Qed.

(** A save whose call resolves with a falsy result does nothing but
    turn [loading] off: no toast, no event, the modal stays open. *)
Lemma saveSummary_falsy_result update st result :
  truthy (VStr (chatId st)) = true →
  update (chatId st)
    (mkUpdateForm (subject (summaryData st)) (knowledge_points (summaryData st))
       (tags (summaryData st))) = Resolved result →
  truthy result = false →
  saveSummary update st
  = mkState (show st) (chatId st) (existingSummary st) false
      (summaryData st) (newKnowledgePoint st) (newTag st) (effects st).
Proof.
  intros Hid Hcall Hres. unfold saveSummary. rewrite Hid. simpl.
  rewrite Hcall. simpl. by rewrite Hres.
Qed.

Lemma saveSummary_falsy_result_witness :
  let st := mkState true (js "c1") None false
              (mkSummaryData (js "Math") [] [] []) [] [] [] in
  let update : jsstring → UpdateForm → Settled JSVal := λ _ _, Resolved VNull in
  saveSummary update st = st.
Proof.
  intros st update.
  apply (saveSummary_falsy_result update st VNull eq_refl eq_refl eq_refl).
Defined.

(** Without a chat there is no call at all. *)
Lemma saveSummary_no_chat update st :
  chatId st = [] → saveSummary update st = st.
Proof. intros Hid. unfold saveSummary. by rewrite Hid. Qed.

Lemma trim_idempotent (s : jsstring) : trim (trim s) = trim s.
Proof.
  apply (trimmedOf_unique (trim s)); [apply trim_trimmedOf|].
  destruct (trim_trimmedOf s) as (_ & _ & _ & _ & _ & Hhd & Hlast).
  exists [], []. rewrite app_nil_r. by split_and!.
Qed.

Lemma tidy_snoc_trim (l : list jsstring) (input : jsstring) :
  tidy l → trim input ≠ [] → trim input ∉ l → tidy (l ++ [trim input]).
Proof.
  intros [Hnd Hall] Hne Hfresh. split.
  - apply NoDup_app. split_and!; [done| |apply NoDup_singleton].
    by intros x Hx ->%list_elem_of_singleton.
  - apply Forall_app. split; [done|].
    apply Forall_singleton. split; [done|apply trim_idempotent].
Qed.

Lemma tidy_filterIndex (l : list jsstring) index :
  tidy l → tidy (filterIndexFrom 0 index l).
Proof.
  intros [Hnd Hall]. rewrite filterIndexFrom_delete by lia.
  rewrite Nat.sub_0_r. split.
  - eapply sublist_NoDup; [exact Hnd|apply sublist_delete].
  - by apply Forall_delete.
Qed.

Lemma modalEdit_tidy e st :
  tidy (knowledge_points (summaryData st)) ∧ tidy (tags (summaryData st)) →
  tidy (knowledge_points (summaryData (modalEdit e st)))
  ∧ tidy (tags (summaryData (modalEdit e st))).
Proof.
  intros [Hk Ht]. destruct e as [text| |index|text| |index]; simpl; try done.
  - unfold addKnowledgePoint.
    destruct (truthy _) eqn:Hne; simpl; [|done].
    case_bool_decide as Hin; simpl; [done|]. split; [|done].
    apply tidy_snoc_trim; try done.
    simpl in Hne. by case_bool_decide.
  - split; [|done]. by apply tidy_filterIndex.
  - unfold addTag.
    destruct (truthy _) eqn:Hne; simpl; [|done].
    case_bool_decide as Hin; simpl; [done|]. split; [done|].
    apply tidy_snoc_trim; try done.
    simpl in Hne. by case_bool_decide.
  - split; [done|]. by apply tidy_filterIndex.
Qed.

(** Whatever the user types, adds and removes in the modal, starting from
    its empty form, neither array ever holds a value twice, an empty
    value, or one with white space at an end; and removing at an index
    past the end changes nothing. *)
Theorem modal_arrays_tidy (edits : list ModalEdit) :
  tidy (knowledge_points (summaryData (runAll (modalEdit <$> edits) init)))
  ∧ tidy (tags (summaryData (runAll (modalEdit <$> edits) init)))
  ∧ (∀ st index, length (knowledge_points (summaryData st)) ≤ index →
       removeKnowledgePoint index st = st)
  ∧ (∀ st index, length (tags (summaryData st)) ≤ index → removeTag index st = st).
Proof.
  assert (tidy (knowledge_points (summaryData (runAll (modalEdit <$> edits) init)))
          ∧ tidy (tags (summaryData (runAll (modalEdit <$> edits) init)))) as [Hk Ht].
  { induction edits as [|e edits IH] using rev_ind.
    - by repeat split; constructor.
    - unfold runAll in *. rewrite fmap_app, foldl_app. simpl.
      by apply modalEdit_tidy. }
  split; [done|]. split; [done|]. split.
    + intros [? ? ? ? []] index Hlen. unfold removeKnowledgePoint. simpl in *.
      by rewrite filterIndexFrom_beyond by (simpl; lia).
    + intros [? ? ? ? []] index Hlen. unfold removeTag. simpl in *.
      by rewrite filterIndexFrom_beyond by (simpl; lia).
Qed.

(** Typing "  Algebra " (with an ideographic space in front) next to an
    existing "Limits" stores "Algebra" and empties the input; typing it
    again, or typing blanks, changes nothing. *)
Example modal_add_values :
  let st := mkState true (js "c1") None false
              (mkSummaryData (js "Math") [js "Limits"] [] [])
              (0x3000%N :: js "  Algebra " ++ [0x0A%N]) [] [] in
  knowledge_points (summaryData (addKnowledgePoint st)) = [js "Limits"; js "Algebra"]
  ∧ newKnowledgePoint (addKnowledgePoint st) = []
  ∧ (let st' := typeKnowledgePoint (js " Algebra") (addKnowledgePoint st) in
     addKnowledgePoint st' = st')
  ∧ (let st' := typeKnowledgePoint (js "   ") st in addKnowledgePoint st' = st').
Proof. vm_compute. repeat split. Qed.

End Modal.

(** ** The mistake book's overall accuracy *)
Section Accuracy.
Import MistakeBook.
Open Scope float_scope.

(** [Math_round] on ties and near them. *)
Example Math_round_ties :
  Math_round 2.5 = 3 ∧ Math_round (-2.5) = -2 ∧ Math_round 0.5 = 1
  ∧ Math_round (-0.5) = -0 ∧ Math_round 0.25 = 0 ∧ Math_round 62.5 = 63
  ∧ Math_round 70 = 70 ∧ Math_round (-12.75) = -13.
Proof. vm_compute. repeat split. Qed.

(** A float above zero is not zero, and a zero is not above zero. *)
Lemma positive_not_zero (x : float) : (0 <? x) = true → (x =? 0) = false.
Proof.
  rewrite FloatAxioms.ltb_spec, FloatAxioms.eqb_spec.
  change (Prim2SF 0) with (S754_zero false).
  by destruct (Prim2SF x) as [[]|[]| |[] m e].
Qed.

Lemma zero_not_positive (x : float) : (x =? 0) = true → (0 <? x) = false.
Proof.
  intros Hz. destruct (0 <? x) eqn:Hp; [|done].
  apply positive_not_zero in Hp. congruence.
Qed.

(** C8: when the sum of the subjects' totals is zero the number shown is
    100 and nothing was divided; when the sum is above zero the number
    shown is [Math.round((1 - totalMistakes / sum) * 100)] and the one
    division had the sum as its divisor; no division of the expression
    ever has a zero divisor. *)
Theorem overallAccuracy_guard st :
  ((sumTotal st =? 0) = true → overallAccuracy st = (100, []))
  ∧ ((0 <? sumTotal st) = true →
       overallAccuracy st
       = (Math_round ((1 - totalMistakes st / sumTotal st) * 100), [sumTotal st]))
  ∧ (∀ d, d ∈ (overallAccuracy st).2 → (d =? 0) = false).
Proof.
  unfold overallAccuracy, divide. split_and!.
  - intros Hz. by rewrite (zero_not_positive _ Hz).
  - by intros ->.
  - intros d. destruct (0 <? sumTotal st) eqn:Hp; simpl.
    + intros ->%list_elem_of_singleton. by apply positive_not_zero.
    + by intros ?%elem_of_nil.
Qed.

Lemma overallAccuracy_guard_witness :
  (let st := mkState [∅; ∅] [(js "Math", mkSubjectStats 2 0 [])] false [] in
   overallAccuracy st = (100, []))
  ∧ (let st := mkState [∅; ∅; ∅]
                 [(js "Math", mkSubjectStats 2 6 []); (js "Physics", mkSubjectStats 1 4 [])]
                 false [] in
     overallAccuracy st
     = (Math_round ((1 - totalMistakes st / sumTotal st) * 100), [sumTotal st])).
Proof.
  split; intros st.
  - apply (proj1 (overallAccuracy_guard st) eq_refl).
  - apply (proj1 (proj2 (overallAccuracy_guard st)) eq_refl).
Defined.

(** Three mistakes out of ten chats read 70; no subject at all reads 100. *)
Example overallAccuracy_values :
  overallAccuracy
    (mkState [∅; ∅; ∅]
       [(js "Math", mkSubjectStats 2 6 []); (js "Physics", mkSubjectStats 1 4 [])]
       false [])
  = (70, [10])
  ∧ overallAccuracy (mkState [∅; ∅] [] false []) = (100, []).
Proof. vm_compute. split; reflexivity. Qed.

End Accuracy.

(** ** The search page under any sequence of events *)
Section SearchEvents.
Import SearchPage SearchUI.
Variable getTimeRange : JSVal → jsstring.

Lemma criteria_of_truthy_flag st :
  truthy (hasFilters st) = true → buildCriteria st ≠ ∅.
Proof.
  intros Hflag Hnone.
  pose proof (buildCriteria_subject st) as Hs.
  pose proof (buildCriteria_knowledge_points st) as Hk.
  pose proof (buildCriteria_tags st) as Ht.
  rewrite Hnone, lookup_empty in Hs, Hk, Ht.
  repeat case_decide; try done.
  rewrite (proj2 (hasFilters_falsy st)) in Hflag; done.
Qed.

Lemma annotateChats_annotated chats :
  Forall annotated (annotateChats getTimeRange chats).
Proof.
  apply Forall_fmap, Forall_forall. intros chat _.
  eexists. apply annotateChat_time_range.
Qed.

Lemma searchInvariant_step p e :
  searchInvariant p → searchInvariant (step getTimeRange p e).
Proof.
  intros Hinv. pose proof Hinv as (Hlen & Hload & Hcrit & Hann).
  destruct e; simpl; try exact Hinv.
  - (* the search button *)
    unfold searchDisabled.
    destruct (loading (state p)) eqn:Hl; simpl; [exact Hinv|].
    destruct (truthy (hasFilters (state p))) eqn:Hf; simpl; [|exact Hinv].
    assert (pending p = []) as Hnone.
    { destruct (pending p) as [|c l] eqn:Hp; [done|].
      assert (c :: l ≠ []) as Hne by done. apply Hload in Hne. congruence. }
    unfold searchInvariant. rewrite Hnone. simpl.
    split_and!; [lia|done|idtac|done].
    constructor; [|done]. by apply criteria_of_truthy_flag.
  - (* clearing *)
    unfold searchInvariant. simpl. split_and!; try done; constructor.
  - (* a search settles *)
    destruct (pending p) as [|criteria rest] eqn:Hp; [exact Hinv|].
    assert (rest = []) as -> by (destruct rest; [done|simpl in Hlen; lia]).
    assert (loading (performSearch_settle getTimeRange outcome (state p)) = false
            ∧ Forall annotated
                (searchResults (performSearch_settle getTimeRange outcome (state p))))
      as [Hl Ha].
    { destruct outcome as [[results|]|err]; simpl; split; try done.
      apply annotateChats_annotated. }
    unfold searchInvariant. simpl. rewrite Hl. split_and!; try done; lia.
Qed.

(** Whatever the user clicks and however the searches end, from the
    page as mounted: at most one search is under way at any time,
    [loading] is on exactly while one is, no search was sent with empty
    criteria, and every result on display carries a [time_range]. *)
Theorem search_single_flight (events : list Event) :
  let p := run getTimeRange events start in
  length (pending p) ≤ 1
  ∧ (loading (state p) = true ↔ pending p ≠ [])
  ∧ Forall (λ criteria, criteria ≠ ∅) (pending p)
  ∧ Forall annotated (searchResults (state p)).
Proof.
  change (searchInvariant (run getTimeRange events start)).
  induction events as [|e events IH] using rev_ind.
  - repeat split; simpl; try done; try lia.
  - unfold run in *. rewrite foldl_app. simpl. by apply searchInvariant_step.
Qed.

(** The button's click followed by the call's settlement is
    [performSearch], when the button is enabled and nothing is pending. *)
Lemma click_then_settle_is_performSearch provider st :
  searchDisabled st = false →
  state (run getTimeRange
           [ClickSearch; SearchSettles (provider (buildCriteria (performSearch_begin st)))]
           (mkPage st []))
  = performSearch getTimeRange provider st.
Proof. intros Hd. unfold run. simpl. by rewrite Hd. Qed.

End SearchEvents.

(** ** The modal under any sequence of events *)
Section ModalEvents.
Import SummaryModal ModalUI.

Lemma reactive_loading st : loading (reactive st) = loading st.
Proof. unfold reactive. by case_match. Qed.

Lemma setShow_loading b st : loading (setShow b st) = loading st.
Proof. unfold setShow. case_bool_decide; [done|]. by rewrite reactive_loading. Qed.

Lemma modalEdit_loading e st : loading (modalEdit e st) = loading st.
Proof.
  destruct e; simpl; try done.
  - unfold addKnowledgePoint. by case_match.
  - unfold addTag. by case_match.
Qed.

(** A call is started only from a page at rest, for a chat that has an
    id; a save, only with a subject chosen. *)
Lemma modalInvariant_begun p r :
  modalInvariant p →
  loading (state p) = false →
  match r.2 with
  | Some call => loading r.1 = true ∧ wellFormed call
  | None => r.1 = state p
  end →
  modalInvariant (begun p r).
Proof.
  intros (Hlen & Hload & Hsent) Hrest Hr. unfold begun.
  assert (pending p = []) as Hnone.
  { destruct (pending p) as [|c l] eqn:Hp; [done|].
    assert (c :: l ≠ []) as Hne by done. apply Hload in Hne. congruence. }
  destruct r as [st' [call|]]; simpl in *.
  - destruct Hr as [Hl Hwf]. unfold modalInvariant. rewrite Hnone. simpl.
    split_and!; [lia|done|]. apply Forall_app. split; [done|]. by constructor.
  - subst st'. unfold modalInvariant. simpl. rewrite Hnone, Hrest. simpl.
    split_and!; [lia|split; done|done].
Qed.

Lemma truthy_VStr (s : jsstring) : truthy (VStr s) = true → s ≠ [].
Proof. simpl. by case_bool_decide. Qed.

Lemma generateSummary_begin_call st :
  match (generateSummary_begin st).2 with
  | Some call => loading (generateSummary_begin st).1 = true ∧ wellFormed call
  | None => (generateSummary_begin st).1 = st
  end.
Proof.
  unfold generateSummary_begin.
  destruct (truthy (VStr (chatId st))) eqn:Hid; simpl; [|done].
  split; [done|]. by apply truthy_VStr.
Qed.

Lemma saveSummary_begin_call st :
  truthy (VStr (subject (summaryData st))) = true →
  match (saveSummary_begin st).2 with
  | Some call => loading (saveSummary_begin st).1 = true ∧ wellFormed call
  | None => (saveSummary_begin st).1 = st
  end.
Proof.
  intros Hs. unfold saveSummary_begin.
  destruct (truthy (VStr (chatId st))) eqn:Hid; simpl; [|done].
  split_and!; [done|by apply truthy_VStr|by apply truthy_VStr].
Qed.

Lemma modalInvariant_step p e :
  modalInvariant p → modalInvariant (step p e).
Proof.
  intros Hinv. pose proof Hinv as (Hlen & Hload & Hsent).
  destruct e; simpl.
  - unfold promptShown.
    destruct (truthy (VStr (subject (summaryData (state p))))); simpl; [exact Hinv|].
    destruct (loading (state p)) eqn:Hl; simpl; [exact Hinv|].
    apply modalInvariant_begun; [exact Hinv|done|apply generateSummary_begin_call].
  - unfold footerEnabled.
    destruct (truthy (VStr (subject (summaryData (state p))))); simpl; [|exact Hinv].
    destruct (loading (state p)) eqn:Hl; simpl; [exact Hinv|].
    apply modalInvariant_begun; [exact Hinv|done|apply generateSummary_begin_call].
  - unfold footerEnabled.
    destruct (truthy (VStr (subject (summaryData (state p))))) eqn:Hs;
      simpl; [|exact Hinv].
    destruct (loading (state p)) eqn:Hl; simpl; [exact Hinv|].
    apply modalInvariant_begun; [exact Hinv|done|by apply saveSummary_begin_call].
  - unfold modalInvariant. simpl. by rewrite setShow_loading.
  - exact Hinv.
  - unfold modalInvariant. simpl. by rewrite modalEdit_loading.
  - unfold modalInvariant. simpl. by rewrite setShow_loading.
  - exact Hinv.
  - unfold modalInvariant, setExistingSummary. simpl. by rewrite reactive_loading.
  - destruct (pending p) as [|[id|id form] rest] eqn:Hp; try exact Hinv.
    assert (rest = []) as -> by (destruct rest; [done|simpl in Hlen; lia]).
    assert (loading (generateSummary_settle outcome (state p)) = false) as Hl
      by by destruct outcome as [[result|]|err].
    unfold modalInvariant. simpl. rewrite Hl. split_and!; try done; lia.
  - destruct (pending p) as [|[id|id form] rest] eqn:Hp; try exact Hinv.
    assert (rest = []) as -> by (destruct rest; [done|simpl in Hlen; lia]).
    assert (loading (saveSummary_settle outcome (state p)) = false) as Hl.
    { destruct outcome as [result|err]; simpl; [|done].
      destruct (truthy result); [|done]. by rewrite reactive_loading. }
    unfold modalInvariant. simpl. rewrite Hl. split_and!; try done; lia.
Qed.

(** Whatever the user and the parent do and however the calls end, from
    the modal as created: at most one call, to either provider, is under
    way at any time, [loading] is on exactly while one is, every call made
    names a chat, and every save made carries a subject. *)
Theorem modal_single_flight (events : list Event) :
  let p := run events start in
  length (pending p) ≤ 1
  ∧ (loading (state p) = true ↔ pending p ≠ [])
  ∧ Forall wellFormed (sent p).
Proof.
  change (modalInvariant (run events start)).
  induction events as [|e events IH] using rev_ind.
  - unfold modalInvariant. simpl. split_and!; try done; lia.
  - unfold run in *. rewrite foldl_app. simpl. by apply modalInvariant_step.
Qed.

(** The handlers of one piece are the two halves put together. *)
Lemma generateSummary_begin_settle summarize st :
  generateSummary summarize st
  = match generateSummary_begin st with
    | (st1, Some (SummarizeCall id)) => generateSummary_settle (summarize id) st1
    | (st1, _) => st1
    end.
Proof. unfold generateSummary, generateSummary_begin. by case_match. Qed.

Lemma saveSummary_begin_settle update st :
  saveSummary update st
  = match saveSummary_begin st with
    | (st1, Some (UpdateCall id form)) => saveSummary_settle (update id form) st1
    | (st1, _) => st1
    end.
Proof. unfold saveSummary, saveSummary_begin. by case_match. Qed.

(** When [generateSummary] has no chat, or its call rejects or resolves
    with nothing, the form is as it was: [summaryData], both inputs and
    [show]; a rejection is reported, the other two are silent. *)
Theorem generateSummary_failure_keeps_form summarize st :
  chatId st = []
  ∨ summarize (chatId st) = Resolved None
  ∨ (∃ err, summarize (chatId st) = Rejected err) →
  summaryData (generateSummary summarize st) = summaryData st
  ∧ newKnowledgePoint (generateSummary summarize st) = newKnowledgePoint st
  ∧ newTag (generateSummary summarize st) = newTag st
  ∧ show (generateSummary summarize st) = show st
  ∧ loading (generateSummary summarize st) = (if decide (chatId st = []) then loading st else false)
  ∧ effects (generateSummary summarize st)
    = effects st
      ++ (if decide (chatId st = []) then []
          else match summarize (chatId st) with
               | Rejected err => [ConsoleError err; ToastGenerateFailed]
               | Resolved _ => []
               end).
Proof.
  intros Hcase. unfold generateSummary. simpl.
  case_decide as Hid; case_bool_decide; try done; simpl.
  - by rewrite app_nil_r.
  - destruct Hcase as [?|[Hnone|[err Herr]]]; [done| |].
    + rewrite Hnone. simpl. by rewrite app_nil_r.
    + by rewrite Herr.
Qed.

Lemma generateSummary_failure_keeps_form_witness :
  let st := mkState true (js "c1") None false
              (mkSummaryData (js "Math") [js "Algebra"] (js "notes") [js "exam"])
              (js "Limits") [] [] in
  let summarize : jsstring → Settled (option SummaryResult) :=
    λ _, Rejected (VStr (js "timeout")) in
  summaryData (generateSummary summarize st) = summaryData st
  ∧ effects (generateSummary summarize st)
    = [ConsoleError (VStr (js "timeout")); ToastGenerateFailed].
Proof.
  intros st summarize.
  destruct (generateSummary_failure_keeps_form summarize st) as (Hd & _ & _ & _ & _ & He).
  - right. right. exists (VStr (js "timeout")). reflexivity.
  - split; [exact Hd|exact He].
Defined.

(** Showing the modal again: with an existing summary the form is
    replaced by it, a missing field by its empty value, whatever was left
    in the form; a save right away then sends the existing subject,
    knowledge points and tags.  With no existing summary the form is left
    as the last session left it. *)
Theorem reopening_resets_form st :
  show st = false →
  (∀ es, existingSummary st = Some es →
     summaryData (setShow true st)
     = mkSummaryData (default [] (ex_subject es)) (default [] (ex_knowledge_points es))
         (default [] (ex_summary es)) (default [] (ex_tags es))
     ∧ (chatId st ≠ [] →
        (saveSummary_begin (setShow true st)).2
        = Some (UpdateCall (chatId st)
                  (mkUpdateForm (default [] (ex_subject es))
                     (default [] (ex_knowledge_points es))
                     (default [] (ex_tags es))))))
  ∧ (existingSummary st = None → summaryData (setShow true st) = summaryData st)
  ∧ newKnowledgePoint (setShow true st) = newKnowledgePoint st
  ∧ newTag (setShow true st) = newTag st
  ∧ show (setShow true st) = true.
Proof.
  intros Hshow. unfold setShow. rewrite Hshow. simpl. unfold reactive. simpl.
  split_and!.
  - intros es Hes. rewrite Hes. simpl. split; [done|].
    intros Hid. unfold saveSummary_begin. simpl.
    case_bool_decide; [done|]. simpl. done.
  - by intros ->.
  - by case_match.
  - by case_match.
  - by case_match.
Qed.

Lemma reopening_resets_form_witness :
  let st := mkState false (js "c1")
              (Some (mkExistingSummary (Some (js "Math")) None None (Some [js "exam"])))
              false
              (mkSummaryData (js "Physics") [js "Optics"] (js "draft") [js "todo"])
              (js "typed") [] [] in
  summaryData (setShow true st) = mkSummaryData (js "Math") [] [] [js "exam"]
  ∧ newKnowledgePoint (setShow true st) = js "typed".
Proof.
  intros st.
  destruct (reopening_resets_form st eq_refl) as (Hes & _ & Hinput & _).
  split; [|exact Hinput].
  exact (proj1 (Hes _ eq_refl)).
Defined.

(** A tag added while a save is under way is not in the form that was
    sent, but it is in the detail of the [updated] event the save
    dispatches when it succeeds. *)
Theorem edits_during_save_reach_the_event st text :
  footerEnabled st = true →
  chatId st ≠ [] →
  trim text ≠ [] →
  trim text ∉ tags (summaryData st) →
  let p := run [ClickSave; Edit (TypeTag text); Edit AddTag;
                UpdateSettles (Resolved (VBool true))]
             (mkPage st [] []) in
  sent p
  = [UpdateCall (chatId st)
       (mkUpdateForm (subject (summaryData st)) (knowledge_points (summaryData st))
          (tags (summaryData st)))]
  ∧ effects (state p)
    = effects st
      ++ [ToastInfoUpdated;
          Dispatch "updated"
            (mkSummaryData (subject (summaryData st))
               (knowledge_points (summaryData st)) (summary (summaryData st))
               (tags (summaryData st) ++ [trim text]))].
Proof.
  intros Hfooter Hid Hne Hfresh p. subst p. unfold run. simpl.
  rewrite Hfooter. unfold saveSummary_begin, begun.
  assert (truthy (VStr (chatId st)) = true) as ->
    by (simpl; by rewrite bool_decide_false).
  simpl. unfold addTag. simpl.
  rewrite (bool_decide_false (trim text = [])) by done.
  rewrite (bool_decide_false (trim text ∈ _)) by done.
  simpl. unfold reactive. simpl. done.
Qed.

Lemma edits_during_save_reach_the_event_witness :
  let st := mkState true (js "c1") None false
              (mkSummaryData (js "Math") [js "Algebra"] (js "notes") [js "exam"])
              [] [] [] in
  let p := run [ClickSave; Edit (TypeTag (js " hard ")); Edit AddTag;
                UpdateSettles (Resolved (VBool true))]
             (mkPage st [] []) in
  sent p = [UpdateCall (js "c1") (mkUpdateForm (js "Math") [js "Algebra"] [js "exam"])]
  ∧ effects (state p)
    = [ToastInfoUpdated;
       Dispatch "updated"
         (mkSummaryData (js "Math") [js "Algebra"] (js "notes") [js "exam"; js "hard"])].
Proof.
  intros st.
  apply (edits_during_save_reach_the_event st (js " hard ")).
  - reflexivity.
  - discriminate.
  - vm_compute. discriminate.
  - intros Hin. apply list_elem_of_singleton in Hin. vm_compute in Hin.
    discriminate Hin.
Defined.

End ModalEvents.

(** ** The mistake book's loads and toggles *)
Section BookHandlers.
Import MistakeBook MistakeBookPage.
Variable getTimeRange : JSVal → jsstring.

Lemma loadData_cases mistakesRes statsRes secondFirst st :
  let st' := loadData getTimeRange mistakesRes statsRes secondFirst st in
  loading st' = false
  ∧ match mistakesRes, statsRes with
    | Resolved chats, Resolved stats =>
        mistakeChats st'
        = match chats with
          | Some chats => annotateChats getTimeRange chats
          | None => mistakeChats st
          end
        ∧ subjectStats st' = default (subjectStats st) stats
        ∧ effects st' = effects st
    | _, _ =>
        mistakeChats st' = mistakeChats st
        ∧ subjectStats st' = subjectStats st
        ∧ ∃ err, effects st' = effects st ++ [ConsoleError err; ToastLoadFailed]
                 ∧ (mistakesRes = Rejected err ∨ statsRes = Rejected err)
    end.
Proof.
  unfold loadData.
  destruct mistakesRes as [chats|err1], statsRes as [stats|err2]; simpl.
  - split; [done|]. by destruct stats.
  - split_and!; try done. exists err2. split; [done|by right].
  - split_and!; try done. exists err1. split; [done|by left].
  - split_and!; try done. destruct secondFirst; eexists; split; try done; auto.
Qed.

(** A load in which either request rejects changes neither the chats nor
    the statistics, also when the other request brought data, and reports
    one failure; a load in which both resolve replaces each of the two for
    which a response came and keeps the other, without any report. *)
Theorem loadData_all_or_nothing mistakesRes statsRes secondFirst st :
  let st' := loadData getTimeRange mistakesRes statsRes secondFirst st in
  loading st' = false
  ∧ match mistakesRes, statsRes with
    | Resolved chats, Resolved stats =>
        mistakeChats st'
        = match chats with
          | Some chats => annotateChats getTimeRange chats
          | None => mistakeChats st
          end
        ∧ subjectStats st' = default (subjectStats st) stats
        ∧ effects st' = effects st
    | _, _ =>
        mistakeChats st' = mistakeChats st
        ∧ subjectStats st' = subjectStats st
        ∧ ∃ err, effects st' = effects st ++ [ConsoleError err; ToastLoadFailed]
                 ∧ (mistakesRes = Rejected err ∨ statsRes = Rejected err)
    end.
Proof. apply loadData_cases. Qed.

(** [toggleMistake] reloads only when the toggle request resolved, and
    then shows its success toast whatever the reload did.  The reload is a
    whole [loadData]: when both its requests resolve, the chats become the
    annotated response and the statistics the response, each kept when its
    response is falsy, and nothing else is shown; when one rejects, the
    list stays as it was, the chat just toggled included, and both the
    load failure and the success are shown.  Either way [loading] ends
    off.  When the toggle request rejects, nothing is reloaded and the
    state is untouched. *)
Theorem toggleMistake_reload toggled mistakesRes statsRes secondFirst st :
  let r := toggleMistake getTimeRange toggled mistakesRes statsRes secondFirst st in
  match toggled with
  | Rejected err => r = (st, [ToggleConsoleError err; ToastToggleFailed])
  | Resolved _ =>
      r.2 = [ToastToggled]
      ∧ r.1 = loadData getTimeRange mistakesRes statsRes secondFirst st
      ∧ loading r.1 = false
      ∧ match mistakesRes, statsRes with
        | Resolved chats, Resolved stats =>
            mistakeChats r.1
            = match chats with
              | Some chats => annotateChats getTimeRange chats
              | None => mistakeChats st
              end
            ∧ subjectStats r.1 = default (subjectStats st) stats
            ∧ effects r.1 = effects st
        | _, _ =>
            mistakeChats r.1 = mistakeChats st
            ∧ subjectStats r.1 = subjectStats st
            ∧ ∃ err, effects r.1 = effects st ++ [ConsoleError err; ToastLoadFailed]
                     ∧ (mistakesRes = Rejected err ∨ statsRes = Rejected err)
        end
  end.
Proof.
  destruct toggled as [result|err]; simpl; [|done].
  split; [done|]. split; [done|].
  apply loadData_cases.
Qed.

Lemma toggleMistake_reload_example :
  let fmt : JSVal → jsstring := λ _, js "just now" in
  let st := mkState [ {[ "id" := VStr (js "c1") ]}; {[ "id" := VStr (js "c2") ]} ]
              [] false [] in
  let r := toggleMistake fmt (Resolved VNull)
             (Resolved (Some [ {[ "id" := VStr (js "c2") ]} ])) (Resolved None)
             false st in
  mistakeChats r.1
  = [ {[ "id" := VStr (js "c2"); "time_range" := VStr (js "just now") ]} ]
  ∧ r.2 = [ToastToggled].
Proof. vm_compute. split; reflexivity. Qed.

Lemma loadStep_annotated st e :
  Forall annotated (mistakeChats st) →
  Forall annotated (mistakeChats (loadStep getTimeRange st e)).
Proof.
  intros Hann. destruct e as [|[[[chats|] stats]|err]]; simpl; try done.
  apply annotateChats_annotated.
Qed.

(** However loads begin and settle, one after another or overlapping,
    from the book as mounted: every chat on display carries a
    [time_range]. *)
Theorem mistakeChats_always_annotated (steps : list LoadStep) :
  Forall annotated (mistakeChats (foldl (loadStep getTimeRange) init steps)).
Proof.
  induction steps as [|e steps IH] using rev_ind; [constructor|].
  rewrite foldl_app. simpl. by apply loadStep_annotated.
Qed.

End BookHandlers.

(** ** The mistake book's derived values *)
Section BookValues.
Import MistakeBook MistakeBookPage.
Open Scope float_scope.

Lemma insertBy_Permutation {A} (compare : A → A → float) x (l : list A) :
  insertBy compare x l ≡ₚ x :: l.
Proof.
  induction l as [|y l IH]; simpl; [done|].
  case_match; [done|]. rewrite IH. apply Permutation_swap.
Qed.

Lemma sortBy_Permutation {A} (compare : A → A → float) (l : list A) :
  sortBy compare l ≡ₚ l.
Proof.
  unfold sortBy.
  assert (∀ sorted, foldl (λ sorted x, insertBy compare x sorted) sorted l
                    ≡ₚ sorted ++ l) as H.
  { induction l as [|x l IH]; intros sorted; simpl.
    - by rewrite app_nil_r.
    - rewrite IH, insertBy_Permutation. simpl. apply Permutation_middle. }
  apply H.
Qed.

(** "最需关注" has a subject exactly when some subject has mistakes above
    zero, and the subject it has is one of the statistics' entries, with
    mistakes above zero. *)
Theorem mostProblematicSubject_sound st :
  (mostProblematicSubject st = None
   ↔ Forall (λ entry, (0 <? mistakes entry.2) = false) (subjectStats st))
  ∧ (∀ entry, mostProblematicSubject st = Some entry →
       entry ∈ subjectStats st ∧ (0 <? mistakes entry.2) = true).
Proof.
  unfold mostProblematicSubject.
  set (chosen := filter _ (subjectStats st)).
  pose proof (sortBy_Permutation (λ a b, mistakes b.2 - mistakes a.2) chosen) as Hperm.
  split.
  - rewrite head_None. split.
    + intros Hnil. rewrite Hnil in Hperm. symmetry in Hperm.
      apply Permutation_nil_r in Hperm.
      apply Forall_forall. intros entry Hin.
      destruct (0 <? mistakes entry.2) eqn:Hpos; [|done].
      exfalso. by apply (filter_nil_not_elem_of _ _ entry Hperm Hpos).
    + intros Hall. apply Permutation_nil_r. rewrite Hperm.
      unfold chosen. clear Hperm chosen.
      induction Hall as [|entry l Hentry _ IH]; [done|].
      rewrite filter_cons_False; [done|]. by rewrite Hentry.
  - intros entry Hhead%head_Some_elem_of.
    rewrite Hperm in Hhead. by apply list_elem_of_filter in Hhead as [? ?].
Qed.

Lemma mostProblematicSubject_sound_witness :
  let st := mkState []
              [(js "Math", mkSubjectStats 0 6 []); (js "Physics", mkSubjectStats 2 4 [])]
              false [] in
  (js "Physics", mkSubjectStats 2 4 []) ∈ subjectStats st
  ∧ (0 <? mistakes (mkSubjectStats 2 4 [])) = true.
Proof.
  intros st.
  exact (proj2 (mostProblematicSubject_sound st)
           (js "Physics", mkSubjectStats 2 4 []) eq_refl).
Defined.

Example mostProblematicSubject_values :
  mostProblematicSubject
    (mkState []
       [(js "Math", mkSubjectStats 1 6 []); (js "Physics", mkSubjectStats 3 4 []);
        (js "Logic", mkSubjectStats 0 5 []); (js "Optics", mkSubjectStats 3 9 [])]
       false [])
  = Some (js "Physics", mkSubjectStats 3 4 [])
  ∧ mostProblematicSubject
      (mkState [] [(js "Math", mkSubjectStats 0 6 [])] false [])
    = None.
Proof. vm_compute. split; reflexivity. Qed.

Lemma zero_plus_zero (x y : float) :
  (x =? 0) = true → (y =? 0) = true → (x + y =? 0) = true.
Proof.
  rewrite !FloatAxioms.eqb_spec, FloatAxioms.add_spec.
  change (Prim2SF 0) with (S754_zero false).
  destruct (Prim2SF x) as [[]|[]| |[] ? ?]; try done;
    destruct (Prim2SF y) as [[]|[]| |[] ? ?]; done.
Qed.

Lemma sumTotal_zero st :
  Forall (λ entry, (total entry.2 =? 0) = true) (subjectStats st) →
  (sumTotal st =? 0) = true.
Proof.
  unfold sumTotal. intros Hall.
  assert (∀ acc, (acc =? 0) = true →
            (foldl (λ acc stats, acc + total stats) acc (subjectStats st).*2 =? 0) = true)
    as H.
  { induction Hall as [|entry l Hentry _ IH]; intros acc Hacc; simpl; [done|].
    apply IH. by apply zero_plus_zero. }
  by apply H.
Qed.

(** A subject's bar width and error rate never divide by zero, and read 0
    whenever the subject's total is not above zero. *)
Theorem subject_rates_guard (stats : SubjectStats) :
  (∀ d, d ∈ (errorRate stats).2 ++ (barWidth stats).2 → (d =? 0) = false)
  ∧ ((0 <? total stats) = false →
       errorRate stats = (0, []) ∧ barWidth stats = (0, []))
  ∧ ((total stats =? 0) = true →
       errorRate stats = (0, []) ∧ barWidth stats = (0, [])).
Proof.
  unfold errorRate, barWidth, divide. split_and!.
  - intros d. destruct (0 <? total stats) eqn:Hp; simpl.
    + rewrite !elem_of_cons, elem_of_nil.
      intros [->|[->|[]]]; by apply positive_not_zero.
    + by intros ?%elem_of_nil.
  - by intros ->.
  - intros Hz. by rewrite (zero_not_positive _ Hz).
Qed.

(** A book whose subjects all have total zero, and one with no subject at
    all, reads 100 for the overall accuracy and 0 for every subject's
    error rate, and divides nothing. *)
Theorem zero_totals_read_100_and_0 st :
  Forall (λ entry, (total entry.2 =? 0) = true) (subjectStats st) →
  overallAccuracy st = (100, [])
  ∧ Forall (λ entry, errorRate entry.2 = (0, []) ∧ barWidth entry.2 = (0, []))
      (subjectStats st).
Proof.
  intros Hall. split.
  - unfold overallAccuracy.
    by rewrite (zero_not_positive _ (sumTotal_zero st Hall)).
  - eapply Forall_impl; [exact Hall|]. intros entry Hz. simpl in Hz.
    unfold errorRate, barWidth. by rewrite (zero_not_positive _ Hz).
Qed.

Lemma zero_totals_read_100_and_0_witness :
  let st := mkState [∅]
              [(js "Math", mkSubjectStats 1 0 []); (js "Physics", mkSubjectStats 0 (-0) [])]
              false [] in
  overallAccuracy st = (100, []).
Proof.
  intros st. apply (zero_totals_read_100_and_0 st).
  repeat constructor.
Defined.

End BookValues.
